(** * Boot-up time audit (lighthouse-core/audits/bootup-time.js)

    A shallow embedding of [BootupTime.getExecutionTimingsByURL] and
    [BootupTime.audit], and the properties of the aggregation pipeline.

    Modelling conventions.
    - Numbers.  The pipeline is written over an arithmetic [Arith]: a type of
      numbers with addition, comparison, truthiness and the rounding
      [Number(x.toFixed(1))].  Every theorem holds for every arithmetic;
      [binary64] is the arithmetic of JavaScript (IEEE 754 doubles, rounding
      to nearest even), [exact] the arithmetic of the rationals.
    - Values.  Besides numbers a property can hold a string.  The only strings
      the pipeline builds are concatenations that contain the text of an
      inherited member of [Object.prototype]; they are kept as the tree of
      their pieces ([jstext]), the decimal text of a number being left
      unexpanded.
    - Plain objects ([{}], [[]] used as dictionaries, the taxonomy literal) are
      [Plain.t]: own properties in the order [Object.keys] lists them (array
      indices ascending, then the other keys in insertion order), reads that
      fall through to the members of [Object.prototype], and the [__proto__]
      accessor.
    - An ES6 [Map] is [Obj.t]: entries in insertion order, any key.
    - A JavaScript exception is the [Throw] case of [result].
    - The external collaborators are parameters: the classifier
      [WebInspector.TimelineUIUtils.eventStyle], the formatter
      [Util.formatMilliseconds], and the tree produced by
      [DevtoolsTimelineModel.bottomUpGroupBy('URL')], which is the input. *)

From Stdlib Require Import List String Ascii Bool ZArith NArith QArith Qround.
From Stdlib Require Import Lia Lqa Floats Permutation DecimalString.
Import ListNotations.

Set Warnings "-inexact-float".

Local Open Scope string_scope.
Local Open Scope list_scope.

(** ** Exceptions *)

Inductive error : Type :=
| TypeError (msg : string).

Inductive result (T : Type) : Type :=
| Ok (a : T)
| Throw (e : error).

Arguments Ok {T} a.
Arguments Throw {T} e.

Definition bind {T U : Type} (r : result T) (k : T -> result U) : result U :=
  match r with
  | Ok a => k a
  | Throw e => Throw e
  end.

Notation "x <- r ;; k" := (bind r (fun x => k))
  (at level 61, r at next level, right associativity).

(** [xs.forEach(f)] where the callback updates a state and may throw. *)
Fixpoint forEachM {T S : Type} (f : S -> T -> result S) (xs : list T) (s : S)
  : result S :=
  match xs with
  | [] => Ok s
  | x :: xs' => s' <- f s x ;; forEachM f xs' s'
  end.

(** ** Arithmetic *)

Record Arith : Type := {
  num : Type;
  (** the literal [0] *)
  numZero : num;
  (** the literal [4000] *)
  numThreshold : num;
  (** [a + b] on numbers *)
  numAdd : num -> num -> num;
  (** [a < b] on numbers *)
  numLt : num -> num -> bool;
  (** [!a]: a zero or NaN *)
  numFalsy : num -> bool;
  (** [Number(a.toFixed(1))] *)
  numToFixed1 : num -> num;
  zero_lt_threshold : numLt numZero numThreshold = true;
  threshold_lt_threshold : numLt numThreshold numThreshold = false;
  toFixed1_zero : numToFixed1 numZero = numZero
}.

(** ** Values *)

(** The text of an object that [+] turns into a string: a native member
    function of [Object.prototype], printed
    [function <name>() { [native code] }], or [Object.prototype] itself,
    printed [[object Object]]. *)
Inductive source : Type :=
| SrcFunction (member : string)
| SrcPrototype.

Section Values.

Context {A : Arith}.

(** A string built by [+]: it always contains a [source]. *)
Inductive jstext : Type :=
| TSource (s : source)
| TAfter (t : jstext) (x : num A)
| TBefore (x : num A) (t : jstext)
| TCat (t u : jstext).

(** What a duration slot, a group or the running total can hold. *)
Inductive jsv : Type :=
| VNum (x : num A)
| VText (t : jstext)
| VFunction (member : string)
| VPrototype.

Inductive primitive : Type :=
| PNum (x : num A)
| PText (t : jstext).

(** ToPrimitive. *)
Definition toPrimitive (v : jsv) : primitive :=
  match v with
  | VNum x => PNum x
  | VText t => PText t
  | VFunction member => PText (TSource (SrcFunction member))
  | VPrototype => PText (TSource SrcPrototype)
  end.

(** [a + b]: concatenation as soon as one operand is a string. *)
Definition jsAdd (a b : jsv) : jsv :=
  match toPrimitive a, toPrimitive b with
  | PNum x, PNum y => VNum (numAdd A x y)
  | PNum x, PText t => VText (TBefore x t)
  | PText t, PNum y => VText (TAfter t y)
  | PText t, PText u => VText (TCat t u)
  end.

(** ToBoolean; a [jstext] is never the empty string. *)
Definition truthyV (v : jsv) : bool :=
  match v with
  | VNum x => negb (numFalsy A x)
  | VText _ | VFunction _ | VPrototype => true
  end.

(** [v < 4000]: a [jstext] converts to NaN, which compares false. *)
Definition belowThreshold (v : jsv) : bool :=
  match toPrimitive v with
  | PNum x => numLt A x (numThreshold A)
  | PText _ => false
  end.

(** The values the [selfTime] field of a node can hold. *)
Inductive jsval : Type :=
| JSundefined
| JSnull
| JSbool (b : bool)
| JSnum (x : num A)
| JSstr (s : string).

(** ToBoolean. *)
Definition truthy (v : jsval) : bool :=
  match v with
  | JSundefined | JSnull => false
  | JSbool b => b
  | JSnum x => negb (numFalsy A x)
  | JSstr s => negb (s =? "")
  end.

Definition falsy (v : jsval) : bool := negb (truthy v).

(** [Number((v || 0).toFixed(1))]: a truthy [v] is the receiver of
    [toFixed], which only numbers have; a falsy [v] is replaced by [0]. *)
Definition roundedSelfTime (v : jsval) : result (num A) :=
  if truthy v then
    match v with
    | JSnum x => Ok (numToFixed1 A x)
    | _ => Throw (TypeError "toFixed is not a function")
    end
  else Ok (numToFixed1 A (numZero A)).

End Values.

Arguments jstext A : clear implicits.
Arguments jsv A : clear implicits.
Arguments primitive A : clear implicits.
Arguments jsval A : clear implicits.

(** ** ES6 Maps: entries in insertion order *)

Module Obj.
Section WithValue.
Context {V : Type}.

Definition t : Type := list (string * V).

Definition empty : t := [].

Fixpoint get (k : string) (o : t) : option V :=
  match o with
  | [] => None
  | (k', v) :: o' => if k =? k' then Some v else get k o'
  end.

Fixpoint set (k : string) (v : V) (o : t) : t :=
  match o with
  | [] => [(k, v)]
  | (k', v') :: o' =>
      if k =? k' then (k, v) :: o' else (k', v') :: set k v o'
  end.

Definition keys (o : t) : list string := map fst o.

Definition values (o : t) : list V := map snd o.
End WithValue.
Arguments t V : clear implicits.
End Obj.

(** ** Plain objects *)

(** What reading [o[k]] finds: an own property, a native function inherited
    from [Object.prototype], the prototype itself (the [__proto__] accessor),
    or nothing ([undefined]). *)
Inductive slot (V : Type) : Type :=
| Own (v : V)
| Inherited (member : string)
| Proto
| Absent.

Arguments Own {V} v.
Arguments Inherited {V} member.
Arguments Proto {V}.
Arguments Absent {V}.

(** The function-valued members of [Object.prototype]. *)
Definition objectPrototypeFunctions : list string :=
  [ "constructor"; "toString"; "toLocaleString"; "valueOf"; "hasOwnProperty";
    "isPrototypeOf"; "propertyIsEnumerable"; "__defineGetter__";
    "__defineSetter__"; "__lookupGetter__"; "__lookupSetter__" ].

Definition isPrototypeFunction (k : string) : bool :=
  existsb (String.eqb k) objectPrototypeFunctions.

Definition digitValue (c : ascii) : option N :=
  let n := N_of_ascii c in
  if ((48 <=? n) && (n <=? 57))%N then Some (n - 48)%N else None.

Fixpoint parseDigits (s : string) (acc : N) : option N :=
  match s with
  | EmptyString => Some acc
  | String c s' =>
      match digitValue c with
      | Some d => parseDigits s' (acc * 10 + d)%N
      | None => None
      end
  end.

(** The array index a property key denotes, if any: the canonical decimal
    text of an integer below [2^32 - 1]. *)
Definition arrayIndex (k : string) : option N :=
  match k with
  | EmptyString => None
  | String c s' =>
      if (c =? "0")%char then (if s' =? "" then Some 0%N else None)
      else
        match parseDigits k 0 with
        | Some n => if (n <? 4294967295)%N then Some n else None
        | None => None
        end
  end.

Module Plain.
Section WithValue.
Context {V : Type}.

(** The own properties, in the order [Object.keys] lists them. *)
Definition t : Type := list (string * V).

Definition empty : t := [].

Definition keys (o : t) : list string := map fst o.

Definition values (o : t) : list V := map snd o.

Definition getOwn (k : string) (o : t) : option V := Obj.get k o.

(** [o[k]]. *)
Definition get (k : string) (o : t) : slot V :=
  match getOwn k o with
  | Some v => Own v
  | None =>
      if k =? "__proto__" then Proto
      else if isPrototypeFunction k then Inherited k
      else Absent
  end.

(** A new own property with an array index goes before the first own key
    that is not an index or is a larger one. *)
Fixpoint insertIndex (n : N) (k : string) (v : V) (o : t) : t :=
  match o with
  | [] => [(k, v)]
  | (k', v') :: o' =>
      match arrayIndex k' with
      | Some n' =>
          if (n <? n')%N then (k, v) :: o else (k', v') :: insertIndex n k v o'
      | None => (k, v) :: o
      end
  end.

(** Writing the own property [k]: in place when it exists, else at the
    position its key has in the enumeration order. *)
Definition put (k : string) (v : V) (o : t) : t :=
  match getOwn k o with
  | Some _ => Obj.set k v o
  | None =>
      match arrayIndex k with
      | Some n => insertIndex n k v o
      | None => o ++ [(k, v)]
      end
  end.

(** [o[k] = v] for a value [v] that is a primitive or the prototype [o]
    already has: the key [__proto__] reaches the inherited setter, which then
    changes nothing; any other key writes an own property (shadowing an
    inherited member of the same name). *)
Definition set (k : string) (v : V) (o : t) : t :=
  if k =? "__proto__" then o else put k v o.

End WithValue.
Arguments t V : clear implicits.
End Plain.

(** ** The category taxonomy *)

Module group.
Definition loading := "Network request loading".
Definition parseHTML := "Parsing DOM".
Definition styleLayout := "Style & Layout".
Definition compositing := "Compositing".
Definition painting := "Paint".
Definition gpu := "GPU".
Definition scripting := "Script Evaluation".
Definition scriptParseCompile := "Script Parsing & Compile".
Definition scriptGC := "Garbage collection".
Definition other := "Other".
Definition images := "Images".
End group.

Definition taskToGroupTable : Plain.t string :=
  [ ("Animation", group.painting);
    ("Async Task", group.other);
    ("Frame Start", group.painting);
    ("Frame Start (main thread)", group.painting);
    ("Cancel Animation Frame", group.scripting);
    ("Cancel Idle Callback", group.scripting);
    ("Compile Script", group.scriptParseCompile);
    ("Composite Layers", group.compositing);
    ("Console Time", group.scripting);
    ("Image Decode", group.images);
    ("Draw Frame", group.painting);
    ("Embedder Callback", group.scripting);
    ("Evaluate Script", group.scripting);
    ("Event", group.scripting);
    ("Animation Frame Fired", group.scripting);
    ("Fire Idle Callback", group.scripting);
    ("Function Call", group.scripting);
    ("DOM GC", group.scriptGC);
    ("GC Event", group.scriptGC);
    ("GPU", group.gpu);
    ("Hit Test", group.compositing);
    ("Invalidate Layout", group.styleLayout);
    ("JS Frame", group.scripting);
    ("Input Latency", group.scripting);
    ("Layout", group.styleLayout);
    ("Major GC", group.scriptGC);
    ("DOMContentLoaded event", group.scripting);
    ("First paint", group.painting);
    ("FMP", group.painting);
    ("FMP candidate", group.painting);
    ("Load event", group.scripting);
    ("Minor GC", group.scriptGC);
    ("Paint", group.painting);
    ("Paint Image", group.images);
    ("Paint Setup", group.painting);
    ("Parse Stylesheet", group.parseHTML);
    ("Parse HTML", group.parseHTML);
    ("Parse Script", group.scriptParseCompile);
    ("Other", group.other);
    ("Rasterize Paint", group.painting);
    ("Recalculate Style", group.styleLayout);
    ("Request Animation Frame", group.scripting);
    ("Request Idle Callback", group.scripting);
    ("Request Main Thread Frame", group.painting);
    ("Image Resize", group.images);
    ("Finish Loading", group.loading);
    ("Receive Data", group.loading);
    ("Receive Response", group.loading);
    ("Send Request", group.loading);
    ("Run Microtasks", group.scripting);
    ("Schedule Style Recalculation", group.styleLayout);
    ("Scroll", group.compositing);
    ("Task", group.other);
    ("Timer Fired", group.scripting);
    ("Install Timer", group.scripting);
    ("Remove Timer", group.scripting);
    ("Timestamp", group.scripting);
    ("Update Layer", group.compositing);
    ("Update Layer Tree", group.compositing);
    ("User Timing", group.scripting);
    ("Create WebSocket", group.scripting);
    ("Destroy WebSocket", group.scripting);
    ("Receive WebSocket Handshake", group.scripting);
    ("Send WebSocket Handshake", group.scripting);
    ("XHR Load", group.scripting);
    ("XHR Ready State Change", group.scripting) ].

(** [taskToGroup[task]]: a category label, or what the read finds on
    [Object.prototype], or [undefined]. *)
Definition taskToGroup (task : string) : slot string :=
  Plain.get task taskToGroupTable.

(** The name a native function prints: the [constructor] member of
    [Object.prototype] is the function [Object]. *)
Definition functionName (member : string) : string :=
  if member =? "constructor" then "Object" else member.

Definition functionSource (member : string) : string :=
  "function " ++ functionName member ++ "() { [native code] }".

(** ToPropertyKey of the result of a taxonomy lookup. *)
Definition propKey (g : slot string) : string :=
  match g with
  | Own s => s
  | Inherited member => functionSource member
  | Proto => "[object Object]"
  | Absent => "undefined"
  end.

(** [a === b] on results of taxonomy lookups: two inherited members are the
    same function exactly when they are the same member. *)
Definition strictEq (a b : slot string) : bool :=
  match a, b with
  | Own x, Own y => x =? y
  | Inherited x, Inherited y => x =? y
  | Proto, Proto => true
  | Absent, Absent => true
  | _, _ => false
  end.

(** ** Records of the audit *)

Record Heading : Type := mkHeading {
  key : slot string;
  itemType : string;
  text : slot string
}.

Definition urlHeading : Heading :=
  {| key := Own "url"; itemType := "url"; text := Own "URL" |}.

(** Modelled from the spec: [Audit.makeTableDetails] lives in audit.js, which
    is not part of the sources; the output contract gives the details as the
    headings together with the row items. *)
Record TableDetails : Type := makeTableDetails {
  headings : list Heading;
  items : list (Plain.t string)
}.

Record Style : Type := mkStyle { title : string }.

(** ** The pipeline *)

Section BootupTime.

Context {A : Arith}.

(** The opaque event payload and the external classifier. *)
Context {Event : Type}.
Variable eventStyle : Event -> Style.

(** [Util.formatMilliseconds(ms, granularity)]; [None] is an omitted second
    argument, [Some 1] the literal [1]. *)
Variable formatMilliseconds : jsv A -> option nat -> string.

Record TaskNode : Type := mkTaskNode {
  event : Event;
  selfTime : jsval A
}.

(** A per-URL node; [children = None] is a node without the [children]
    property.  The children are a Map whose keys the audit never reads, so
    only the nodes are kept, in iteration order. *)
Record UrlNode : Type := mkUrlNode {
  children : option (list TaskNode)
}.

(** [bottomUpByName.children]: a Map from URL to node. *)
Definition Tree : Type := list (string * UrlNode).

Definition UrlTimingMap : Type := Obj.t (Plain.t (jsv A)).

(** [extendedInfo]: a plain object keyed by URL.  Assigning a duration map
    under the key [__proto__] makes that map the prototype and writes no own
    property. *)
Record ExtendedInfo : Type := mkExtendedInfo {
  infoOwn : Plain.t (Plain.t (jsv A));
  infoPrototype : option (Plain.t (jsv A))
}.

Record AuditResult : Type := mkAuditResult {
  score : bool;
  rawValue : jsv A;
  displayValue : string;
  details : TableDetails;
  extendedInfo : ExtendedInfo
}.

(** [o[k] || 0]. *)
Definition orZero (s : slot (jsv A)) : jsv A :=
  match s with
  | Own v => if truthyV v then v else VNum (numZero A)
  | Inherited member => VFunction member
  | Proto => VPrototype
  | Absent => VNum (numZero A)
  end.

(** [o[k] = o[k] || 0; o[k] += d].  After the first assignment [o[k]] reads
    as the value just assigned: the own property, or, under the key
    [__proto__], the prototype again. *)
Definition bump (k : string) (d : jsv A) (o : Plain.t (jsv A)) : Plain.t (jsv A) :=
  let current := orZero (Plain.get k o) in
  let o1 := Plain.set k current o in
  Plain.set k (jsAdd current d) o1.

(** Body of the inner [forEach] of [getExecutionTimingsByURL]. *)
Definition perTask (tasks : Plain.t (jsv A)) (perTaskPerUrlNode : TaskNode)
  : result (Plain.t (jsv A)) :=
  let taskGroup := eventStyle (event perTaskPerUrlNode) in
  ms <- roundedSelfTime (selfTime perTaskPerUrlNode) ;;
  Ok (bump (title taskGroup) (VNum ms) tasks).

(** The test [!url || url === 'about:blank']. *)
Definition skipped (url : string) : bool :=
  (url =? "") || (url =? "about:blank").

(** Body of the outer [forEach] of [getExecutionTimingsByURL]. *)
Definition perUrl (result0 : UrlTimingMap) (entry : string * UrlNode)
  : result UrlTimingMap :=
  let '(url, perUrlNode) := entry in
  if skipped url then Ok result0
  else
    match children perUrlNode with
    | None => Throw (TypeError "Cannot read property 'forEach' of undefined")
    | Some cs =>
        tasks <- forEachM perTask cs Plain.empty ;;
        Ok (Obj.set url tasks result0)
    end.

Definition getExecutionTimingsByURL (bottomUpByName : Tree)
  : result UrlTimingMap :=
  forEachM perUrl bottomUpByName Obj.empty.

(** Body of [Object.keys(durations).forEach(task => ...)]; the state is
    [totalBootupTime], [headings] and the [groups] of the current URL.  The
    loop reads [durations[task]] for each own key, which is the traversal of
    the own properties.  [groups] is an array used as a dictionary: the
    property names written to it are those of the taxonomy lookups, none of
    which is an array index, [length], or the name of a member of
    [Array.prototype] or [Object.prototype], so it behaves as a plain
    object. *)
Definition addTask (st : jsv A * list Heading * Plain.t (jsv A))
  (entry : string * jsv A) : jsv A * list Heading * Plain.t (jsv A) :=
  let '(totalBootupTime, hs, groups) := st in
  let '(task, d) := entry in
  let totalBootupTime := jsAdd totalBootupTime d in
  let g := taskToGroup task in
  let groups := bump (propKey g) d groups in
  let hs :=
    match find (fun heading => strictEq (key heading) g) hs with
    | Some _ => hs
    | None => hs ++ [ {| key := g; itemType := "text"; text := g |} ]
    end in
  (totalBootupTime, hs, groups).

(** [extendedInfo[url] = durations]. *)
Definition recordInfo (url : string) (durations : Plain.t (jsv A))
  (info : ExtendedInfo) : ExtendedInfo :=
  if url =? "__proto__"
  then {| infoOwn := infoOwn info; infoPrototype := Some durations |}
  else {| infoOwn := Plain.put url durations (infoOwn info);
          infoPrototype := infoPrototype info |}.

(** State of the [map] over [Array.from(bootupTimings)]: the running total,
    the headings, [extendedInfo], and the rows [{url, groups}] produced so
    far. *)
Record GroupState : Type := mkGroupState {
  gsTotal : jsv A;
  gsHeadings : list Heading;
  gsExtendedInfo : ExtendedInfo;
  gsGroupsPerUrl : list (string * Plain.t (jsv A))
}.

Definition groupUrl (st : GroupState) (entry : string * Plain.t (jsv A))
  : GroupState :=
  let '(url, durations) := entry in
  let info := recordInfo url durations (gsExtendedInfo st) in
  let '(total, hs, groups) :=
    fold_left addTask durations (gsTotal st, gsHeadings st, Plain.empty) in
  {| gsTotal := total;
     gsHeadings := hs;
     gsExtendedInfo := info;
     gsGroupsPerUrl := gsGroupsPerUrl st ++ [(url, groups)] |}.

Definition initialState : GroupState :=
  {| gsTotal := VNum (numZero A);
     gsHeadings := [urlHeading];
     gsExtendedInfo := {| infoOwn := Plain.empty; infoPrototype := None |};
     gsGroupsPerUrl := [] |}.

(** [groups[heading.key] || 0], the value handed to the formatter. *)
Definition cellArgument (groups : Plain.t (jsv A)) (heading : Heading) : jsv A :=
  orZero (Plain.get (propKey (key heading)) groups).

(** One element of [results]: a cell per heading, then [res.url = url]. *)
Definition makeRow (hs : list Heading) (row : string * Plain.t (jsv A))
  : Plain.t string :=
  let '(url, groups) := row in
  let res :=
    fold_left
      (fun res heading =>
         Plain.set (propKey (key heading))
           (formatMilliseconds (cellArgument groups heading) (Some 1%nat))
           res)
      hs Plain.empty in
  Plain.set "url" url res.

(** [audit] after [bootupTimings] has been computed. *)
Definition auditTimings (bootupTimings : UrlTimingMap) : AuditResult :=
  let st := fold_left groupUrl bootupTimings initialState in
  let results := map (makeRow (gsHeadings st)) (gsGroupsPerUrl st) in
  let tableDetails := makeTableDetails (gsHeadings st) results in
  {| score := belowThreshold (gsTotal st);
     rawValue := gsTotal st;
     displayValue := formatMilliseconds (gsTotal st) None;
     details := tableDetails;
     extendedInfo := gsExtendedInfo st |}.

Definition audit (bottomUpByName : Tree) : result AuditResult :=
  bootupTimings <- getExecutionTimingsByURL bottomUpByName ;;
  Ok (auditTimings bootupTimings).

End BootupTime.

Arguments TaskNode A Event : clear implicits.
Arguments UrlNode A Event : clear implicits.
Arguments Tree A Event : clear implicits.
Arguments UrlTimingMap A : clear implicits.
Arguments ExtendedInfo A : clear implicits.
Arguments AuditResult A : clear implicits.
Arguments GroupState A : clear implicits.
Arguments perTask {A Event} eventStyle tasks perTaskPerUrlNode : simpl never.
Arguments perUrl {A Event} eventStyle result0 entry : simpl never.
Arguments bump {A} k d o : simpl never.

(** ** Reference definitions used to state the properties *)

(** The elements of a list in order of first occurrence. *)
Fixpoint firstSeen {T : Type} (eqb : T -> T -> bool) (l : list T) : list T :=
  match l with
  | [] => []
  | x :: l' => x :: filter (fun y => negb (eqb x y)) (firstSeen eqb l')
  end.

(** The category labels of the taxonomy. *)
Definition groupLabels : list string :=
  [ group.loading; group.parseHTML; group.styleLayout; group.compositing;
    group.painting; group.gpu; group.scripting; group.scriptParseCompile;
    group.scriptGC; group.other; group.images ].

Definition isCategoryKey (k : string) : bool := existsb (String.eqb k) groupLabels.

(** Every value a taxonomy lookup can return. *)
Definition lookupResults : list (slot string) :=
  map Own groupLabels ++ map Inherited objectPrototypeFunctions ++ [Proto; Absent].

(** A key that names a property every plain object inherits. *)
Definition inheritedName (k : string) : bool :=
  (k =? "__proto__") || isPrototypeFunction k.

(** The heading pushed for a newly met lookup result. *)
Definition categoryHeading (g : slot string) : Heading :=
  {| key := g; itemType := "text"; text := g |}.

(** The heading list after the lookup results [gs] have been met in turn:
    the [headings.find] / [headings.push] step of the aggregation loop. *)
Definition discover (hs : list Heading) (gs : list (slot string)) : list Heading :=
  fold_left
    (fun hs g =>
       match find (fun heading => strictEq (key heading) g) hs with
       | Some _ => hs
       | None => hs ++ [categoryHeading g]
       end)
    gs hs.

Section Reference.

Context {A : Arith}.

(** [x || 0] on a number. *)
Definition resetNum (x : num A) : num A :=
  if numFalsy A x then numZero A else x.

(** The sum of numbers as an entry accumulates it: each step computes
    [(acc || 0) + x], starting from no entry. *)
Definition runningSum (xs : list (num A)) : num A :=
  fold_left (fun acc x => numAdd A (resetNum acc) x) xs (numZero A).

(** The sum of numbers as the running total accumulates it: [acc + x] from
    [0]. *)
Definition plainSum (xs : list (num A)) : num A :=
  fold_left (numAdd A) xs (numZero A).

(** [v || 0]. *)
Definition reset (v : jsv A) : jsv A :=
  if truthyV v then v else VNum (numZero A).

(** [o[k] || 0] for an own or missing property. *)
Definition orZeroOwn (cur : option (jsv A)) : jsv A :=
  match cur with
  | Some v => reset v
  | None => VNum (numZero A)
  end.

(** An entry after the amounts [ds] have been added to it in turn. *)
Definition extend (cur : option (jsv A)) (ds : list (jsv A)) : option (jsv A) :=
  fold_left (fun cur d => Some (jsAdd (orZeroOwn cur) d)) ds cur.

(** The amounts recorded under key [k] in a list of (key, amount) pairs. *)
Definition amountsOf {V : Type} (k : string) (kds : list (string * V)) : list V :=
  map snd (filter (fun kd => fst kd =? k) kds).

(** Accumulating (key, amount) pairs into an object, one [bump] per pair. *)
Definition accumulate (kds : list (string * jsv A)) (o : Plain.t (jsv A))
  : Plain.t (jsv A) :=
  fold_left (fun o kd => bump (fst kd) (snd kd) o) kds o.

(** The durations of a URL, each keyed by the property name of its taxonomy
    lookup. *)
Definition byCategory (durations : Plain.t (jsv A)) : list (string * jsv A) :=
  map (fun e => (propKey (taskToGroup (fst e)), snd e)) durations.

(** The groups the aggregation loop builds for a URL. *)
Definition groupsOf (durations : Plain.t (jsv A)) : Plain.t (jsv A) :=
  accumulate (byCategory durations) Plain.empty.

(** The durations of a URL whose taxonomy lookup is [g]. *)
Definition categoryDurations (g : slot string) (durations : Plain.t (jsv A))
  : list (jsv A) :=
  map snd (filter (fun e => strictEq (taskToGroup (fst e)) g) durations).

(** All task labels of a UrlTimingMap, in the order of the outer URL
    iteration then the inner iteration over [Object.keys]. *)
Definition labelsInOrder (m : UrlTimingMap A) : list string :=
  flat_map (fun e => Plain.keys (snd e)) m.

(** All task durations of a UrlTimingMap, in the same order. *)
Definition durationsInOrder (m : UrlTimingMap A) : list (jsv A) :=
  flat_map (fun e => Plain.values (snd e)) m.

(** The taxonomy lookups of a UrlTimingMap in the order the aggregation loop
    meets them, each once. *)
Definition columns (m : UrlTimingMap A) : list (slot string) :=
  firstSeen strictEq (map taskToGroup (labelsInOrder m)).

(** A row of the table over the given columns: the [url] cell, then one
    formatted cell per column. *)
Definition rowOver (formatMilliseconds : jsv A -> option nat -> string)
  (cols : list (slot string)) (url : string) (groups : Plain.t (jsv A))
  : Plain.t string :=
  ("url", url)
  :: map (fun g => (propKey g,
                    formatMilliseconds (cellArgument groups (categoryHeading g))
                      (Some 1%nat)))
       cols.


(** [extendedInfo.value[url]]: the own property, if any. *)
Definition infoAt (url : string) (info : ExtendedInfo A) : option (Plain.t (jsv A)) :=
  Plain.getOwn url (infoOwn info).

Context {Event : Type}.
Variable eventStyle : Event -> Style.

Definition labelOf (c : TaskNode A Event) : string := title (eventStyle (event c)).

Definition isNumber (v : jsval A) : bool :=
  match v with
  | JSnum _ => true
  | _ => false
  end.

(** The number [selfTime || 0] of a child whose [selfTime] is a number or
    falsy. *)
Definition selfTimeOrZero (v : jsval A) : num A :=
  if truthy v then
    match v with
    | JSnum x => x
    | _ => numZero A
    end
  else numZero A.

(** The self-time of a child rounded to one decimal. *)
Definition rounded (c : TaskNode A Event) : num A :=
  numToFixed1 A (selfTimeOrZero (selfTime c)).

(** Each child as its display label and its rounded self-time. *)
Definition roundedPairs (cs : list (TaskNode A Event)) : list (string * jsv A) :=
  map (fun c => (labelOf c, VNum (rounded c))) cs.

(** The rounded self-times of the children displayed as [l], in order. *)
Definition roundedOf (l : string) (cs : list (TaskNode A Event)) : list (num A) :=
  map rounded (filter (fun c => labelOf c =? l) cs).

(** A child whose [selfTime] is a number, or is falsy (missing included). *)
Definition hasDuration (c : TaskNode A Event) : bool :=
  falsy (selfTime c) || isNumber (selfTime c).

(** The entries of the tree the extractor retains. *)
Definition retained (tree : Tree A Event) : Tree A Event :=
  filter (fun e => negb (skipped (fst e))) tree.

(** The children of a per-URL node; none when the property is missing. *)
Definition childrenOf (node : UrlNode A Event) : list (TaskNode A Event) :=
  match children node with
  | Some cs => cs
  | None => []
  end.

(** A per-URL node the inner loop runs over without an exception: it has
    [children], and every child's [selfTime] is a number or falsy. *)
Definition processable (node : UrlNode A Event) : bool :=
  match children node with
  | Some cs => forallb hasDuration cs
  | None => false
  end.

(** A tree all of whose retained nodes are processable. *)
Definition extractable (tree : Tree A Event) : bool :=
  forallb (fun e => processable (snd e)) (retained tree).

(** The task nodes below the retained URL nodes, in iteration order. *)
Definition retainedChildren (tree : Tree A Event) : list (TaskNode A Event) :=
  flat_map (fun e => childrenOf (snd e)) (retained tree).

End Reference.

Arguments isNumber {A} v.
Arguments selfTimeOrZero {A} v.
Arguments hasDuration {A Event} c.
Arguments retained {A Event} tree.
Arguments childrenOf {A Event} node.
Arguments processable {A Event} node.
Arguments extractable {A Event} tree.
Arguments retainedChildren {A Event} tree.

(** ** The claims as the specification words them *)

Section Worded.

Context {A : Arith}.


(** C4: every heading after the first is a category of the taxonomy. *)
Definition everyColumnIsCategory (r : AuditResult A) : Prop :=
  forall h, In h (tl (headings (details r))) ->
            exists c, key h = Own c /\ In c groupLabels.

(** C5: time outside the taxonomy has no column, neither a heading with an
    [undefined] key nor a cell under the property ["undefined"]. *)
Definition unknownTimeUnattributed (r : AuditResult A) : Prop :=
  (forall h, In h (headings (details r)) -> key h <> Absent)
  /\ (forall row, In row (items (details r)) -> Plain.getOwn "undefined" row = None).



End Worded.

(** ** The arithmetic of JavaScript: binary64 *)

(** For a positive double [m * 2^e], the integer [n] with [n / 10] closest
    to it, the larger one on a tie. *)
Definition exactTenths (m : positive) (e : Z) : Z :=
  if (0 <=? e)%Z then 10 * Zpos m * 2 ^ e
  else ((20 * Zpos m + 2 ^ (- e)) / 2 ^ (- e + 1))%Z.

(** The double closest to [n / 10], with the sign [s]: the quotient is taken
    with 64 extra binary digits and a sticky last digit, then rounded to
    nearest even. *)
Definition nearestTenth (s : bool) (n : Z) : float :=
  if (n =? 0)%Z then (if s then neg_zero else zero)
  else
    let q := ((n * 2 ^ 64) / 10)%Z in
    let r := ((n * 2 ^ 64) mod 10)%Z in
    let m := (2 * q + (if (r =? 0)%Z then 0 else 1))%Z in
    SF2Prim (binary_normalize prec emax (if s then (- m)%Z else m) (-65) false).

(** [Number(x.toFixed(1))] on a double: NaN and the infinities print as
    their names, a double of magnitude 1e21 or more prints in full; otherwise
    the sign is split off and the magnitude is rounded to the closest number
    of tenths, whose decimal text is then read back as a double. *)
Definition toFixed1Float (x : float) : float :=
  if is_nan x || is_infinity x then x
  else if PrimFloat.leb 1e21 (abs x) then x
  else
    match Prim2SF x with
    | S754_finite s m e => nearestTenth s (exactTenths m e)
    | _ => zero
    end.

Definition falsyFloat (x : float) : bool := is_zero x || is_nan x.

Definition binary64 : Arith :=
  {| num := float;
     numZero := 0%float;
     numThreshold := 4000%float;
     numAdd := PrimFloat.add;
     numLt := PrimFloat.ltb;
     numFalsy := falsyFloat;
     numToFixed1 := toFixed1Float;
     zero_lt_threshold := eq_refl;
     threshold_lt_threshold := eq_refl;
     toFixed1_zero := eq_refl |}.

(** ** The arithmetic of the rationals *)

Definition toFixed1Q (x : Q) : Q :=
  Qred (if Qle_bool 0 x
        then Qfloor (x * 10 + (1 # 2)) # 10
        else - (Qfloor ((- x) * 10 + (1 # 2)) # 10))%Q.

Definition exact : Arith :=
  {| num := Q;
     numZero := 0%Q;
     numThreshold := 4000%Q;
     numAdd := Qplus;
     numLt := fun a b => negb (Qle_bool b a);
     numFalsy := fun a => Qeq_bool a 0;
     numToFixed1 := toFixed1Q;
     zero_lt_threshold := eq_refl;
     threshold_lt_threshold := eq_refl;
     toFixed1_zero := eq_refl |}.

(** ** Sample instances of the external collaborators *)

(** [Math.round] of a finite double. *)
Definition roundToInteger (x : float) : option Z :=
  match Prim2SF (x + 0.5)%float with
  | S754_zero _ => Some 0%Z
  | S754_finite s m e =>
      let n := if (0 <=? e)%Z then (Zpos m * 2 ^ e)%Z
               else if s then (- ((- Zpos m) / 2 ^ (- e)))%Z
                    else (Zpos m / 2 ^ (- e))%Z in
      Some (if s then (- n)%Z else n)
  | _ => None
  end.

(** A formatter in the manner of [Util.formatMilliseconds]: the number of
    milliseconds rounded to a multiple of the granularity, 10 when it is
    omitted, followed by the unit; digits are not grouped. *)
Definition sampleFormat (ms : jsv binary64) (granularity : option nat) : string :=
  let g := match granularity with
           | Some n => Z.of_nat n
           | None => 10%Z
           end in
  match ms with
  | VNum x =>
      match roundToInteger (x / SF2Prim (binary_normalize prec emax g 0 false)) with
      | Some z => NilZero.string_of_int (Z.to_int (z * g)) ++ " ms"
      | None => "NaN ms"
      end
  | _ => "NaN ms"
  end.

(** Events that carry their display label. *)
Definition sampleStyle (e : string) : Style := mkStyle e.

Definition task (label : string) (ms : float) : TaskNode binary64 string :=
  mkTaskNode label (@JSnum binary64 ms).

Definition sampleAudit : Tree binary64 string -> result (AuditResult binary64) :=
  audit sampleStyle sampleFormat.

Definition sampleTimings : Tree binary64 string -> result (UrlTimingMap binary64) :=
  getExecutionTimingsByURL sampleStyle.

Definition number (x : float) : jsv binary64 := @VNum binary64 x.


(** One script with an evaluation and a parse task. *)
Definition scriptTree : Tree binary64 string :=
  [ ("https://a.test/script.js",
     mkUrlNode (Some [ task "Evaluate Script" 1500.4;
                       task "Parse Script" 200.1 ])) ].

Definition scriptTimings : UrlTimingMap binary64 :=
  [ ("https://a.test/script.js",
     [ ("Evaluate Script", number 1500.4); ("Parse Script", number 200.1) ]) ].

(** Only an [about:blank] entry. *)
Definition blankTree : Tree binary64 string :=
  [ ("about:blank", mkUrlNode (Some [ task "Evaluate Script" 250 ])) ].

(** A label the taxonomy does not list. *)
Definition unknownDurations : Plain.t (jsv binary64) :=
  [ ("Evaluate Script", number 3); ("Mystery Task", number 5) ].

Definition unknownTree : Tree binary64 string :=
  [ ("https://a.test/script.js",
     mkUrlNode (Some [ task "Evaluate Script" 3; task "Mystery Task" 5 ])) ].

Definition unknownTimings : UrlTimingMap binary64 :=
  [ ("https://a.test/script.js", unknownDurations) ].

(** A retained URL node without [children]. *)
Definition missingChildrenTree : Tree binary64 string :=
  [ ("https://a.test/script.js", mkUrlNode None) ].

(** Two scripts totalling 4500 ms of script evaluation. *)
Definition slowTree : Tree binary64 string :=
  [ ("https://a.test/a.js", mkUrlNode (Some [ task "Evaluate Script" 2500 ]));
    ("https://a.test/b.js", mkUrlNode (Some [ task "Function Call" 2000 ])) ].

(** One script whose only task takes exactly the threshold. *)
Definition boundaryTree : Tree binary64 string :=
  [ ("https://a.test/a.js", mkUrlNode (Some [ task "Evaluate Script" 4000 ])) ].

Definition boundaryTimings : UrlTimingMap binary64 :=
  [ ("https://a.test/a.js", [ ("Evaluate Script", number 4000) ]) ].

(** A mix: skipped entries, a repeated label, a child without [selfTime]. *)
Definition mixedChildren : list (TaskNode binary64 string) :=
  [ task "Paint" 1.04;
    task "Evaluate Script" 2;
    mkTaskNode "Layout" JSundefined;
    task "Paint" 1.04 ].

Definition mixedTree : Tree binary64 string :=
  [ ("", mkUrlNode (Some [ task "Task" 100 ]));
    ("https://a.test/a.js", mkUrlNode (Some mixedChildren));
    ("about:blank", mkUrlNode None);
    ("https://a.test/b.js",
     mkUrlNode (Some [ task "Compile Script" 3.5; task "Layout" 1 ])) ].

Definition mixedDurations : Plain.t (jsv binary64) :=
  [ ("Paint", number 2); ("Evaluate Script", number 2); ("Layout", number 0) ].

Definition mixedTimings : UrlTimingMap binary64 :=
  [ ("https://a.test/a.js", mixedDurations);
    ("https://a.test/b.js", [ ("Compile Script", number 3.5); ("Layout", number 1) ]) ].

(** Three tasks in two categories whose binary64 sums depend on the
    grouping. *)
Definition regroupDurations : Plain.t (jsv binary64) :=
  [ ("Paint", number 0.1); ("Layout", number 0.1); ("Draw Frame", number 0.4) ].

Definition regroupTree : Tree binary64 string :=
  [ ("https://a.test/a.js",
     mkUrlNode (Some [ task "Paint" 0.1; task "Layout" 0.1; task "Draw Frame" 0.4 ])) ].

Definition regroupTimings : UrlTimingMap binary64 :=
  [ ("https://a.test/a.js", regroupDurations) ].

(** Display labels that name properties every plain object inherits, and one
    that is an array index. *)
Definition inheritedChildren : list (TaskNode binary64 string) :=
  [ task "Paint" 2; task "__proto__" 1.5; task "constructor" 0.5; task "42" 1 ].

Definition inheritedTree : Tree binary64 string :=
  [ ("https://a.test/a.js", mkUrlNode (Some inheritedChildren)) ].

Definition inheritedDurations : Plain.t (jsv binary64) :=
  [ ("42", number 1);
    ("Paint", number 2);
    ("constructor",
     VText (@TAfter binary64 (TSource (SrcFunction "constructor")) 0.5%float)) ].

Definition inheritedTimings : UrlTimingMap binary64 :=
  [ ("https://a.test/a.js", inheritedDurations) ].


(** The same tasks in the arithmetic of the rationals. *)
Definition exactTree : Tree exact string :=
  [ ("https://a.test/a.js",
     mkUrlNode (Some [ mkTaskNode "Paint" (@JSnum exact (104 # 100)%Q);
                       mkTaskNode "Layout" JSundefined;
                       mkTaskNode "Paint" (@JSnum exact (104 # 100)%Q) ])) ].

Definition exactTimings : UrlTimingMap exact :=
  [ ("https://a.test/a.js", [ ("Paint", @VNum exact 2%Q); ("Layout", @VNum exact 0%Q) ]) ].

Definition exactFormat (ms : jsv exact) (granularity : option nat) : string := "ms".

(** * Properties *)



(** ** Entries in insertion order *)

Section ObjFacts.

Context {V : Type}.
Implicit Types (o : Obj.t V) (k : string) (v : V).

Lemma get_set_same k v o : Obj.get k (Obj.set k v o) = Some v.
Proof.
  induction o as [|[k' v'] o IH]; simpl.
  - now rewrite String.eqb_refl.
  - destruct (String.eqb_spec k k') as [->|Hne]; simpl.
    + now rewrite String.eqb_refl.
    + destruct (String.eqb_spec k k'); [contradiction|exact IH].
Qed.

Lemma get_set_other k k' v o :
  k <> k' -> Obj.get k' (Obj.set k v o) = Obj.get k' o.
Proof.
  intros Hne. induction o as [|[k1 v1] o IH]; simpl.
  - destruct (String.eqb_spec k' k); congruence.
  - destruct (String.eqb_spec k k1) as [->|]; simpl.
    + destruct (String.eqb_spec k' k1); congruence.
    + destruct (String.eqb_spec k' k1); auto.
Qed.

Lemma get_None_notin k o : Obj.get k o = None <-> ~ In k (Obj.keys o).
Proof.
  induction o as [|[k' v'] o IH]; simpl.
  - tauto.
  - destruct (String.eqb_spec k k') as [->|Hne].
    + split; [discriminate|]. intros H. exfalso. apply H. now left.
    + rewrite IH. split; [intros H [E|I]; [congruence|tauto]|tauto].
Qed.

Lemma get_Some_in k v o : Obj.get k o = Some v -> In (k, v) o.
Proof.
  induction o as [|[k' v'] o IH]; simpl; [discriminate|].
  destruct (String.eqb_spec k k') as [->|Hne].
  - intros E. injection E as ->. now left.
  - intros E. right. auto.
Qed.

Lemma in_get_NoDup k v o :
  NoDup (Obj.keys o) -> In (k, v) o -> Obj.get k o = Some v.
Proof.
  induction o as [|[k' v'] o IH]; simpl; [tauto|].
  intros Hnd [E|I].
  - injection E as -> ->. now rewrite String.eqb_refl.
  - inversion Hnd as [|? ? Hni Hnd']; subst.
    destruct (String.eqb_spec k k') as [->|Hne]; [|auto].
    exfalso. apply Hni. change (In (fst (k', v)) (map fst o)). now apply in_map.
Qed.

Lemma set_notin k v o : ~ In k (Obj.keys o) -> Obj.set k v o = o ++ [(k, v)].
Proof.
  induction o as [|[k' v'] o IH]; simpl; [reflexivity|].
  intros H. destruct (String.eqb_spec k k') as [->|Hne]; [tauto|].
  f_equal. apply IH. tauto.
Qed.

Lemma keys_set_in k v o : In k (Obj.keys o) -> Obj.keys (Obj.set k v o) = Obj.keys o.
Proof.
  induction o as [|[k' v'] o IH]; simpl; [tauto|].
  intros H. destruct (String.eqb_spec k k') as [->|Hne]; simpl; [reflexivity|].
  f_equal. apply IH. destruct H; congruence.
Qed.

Lemma in_keys_set k k' v o :
  In k' (Obj.keys (Obj.set k v o)) <-> k' = k \/ In k' (Obj.keys o).
Proof.
  destruct (in_dec string_dec k (Obj.keys o)) as [Hin|Hni].
  - rewrite keys_set_in by assumption. split; [tauto|]. intros [->|]; assumption.
  - rewrite set_notin by assumption. unfold Obj.keys. rewrite map_app, in_app_iff.
    simpl. split; [intros [|[|]]; auto; tauto|intros [|]; auto].
Qed.

Lemma NoDup_keys_set k v o : NoDup (Obj.keys o) -> NoDup (Obj.keys (Obj.set k v o)).
Proof.
  intros Hnd. destruct (in_dec string_dec k (Obj.keys o)) as [Hin|Hni].
  - now rewrite keys_set_in.
  - rewrite set_notin by assumption. unfold Obj.keys in *. rewrite map_app. simpl.
    apply NoDup_app; auto.
    + constructor; [simpl; tauto|constructor].
    + intros x Hx [<-|[]]. contradiction.
Qed.

(** ** Own properties of plain objects *)

Implicit Types (n : N).

Lemma getOwn_insertIndex n k k' v o :
  Obj.get k o = None ->
  Obj.get k' (Plain.insertIndex n k v o)
  = if k' =? k then Some v else Obj.get k' o.
Proof.
  induction o as [|[k1 v1] o IH]; simpl; [reflexivity|].
  destruct (String.eqb_spec k k1) as [->|Hne]; [discriminate|]. intros Hk.
  destruct (arrayIndex k1) as [n1|]; [destruct (n <? n1)%N|]; simpl;
    try reflexivity.
  rewrite (IH Hk).
  destruct (String.eqb_spec k' k1) as [->|]; [|reflexivity].
  destruct (String.eqb_spec k1 k); congruence.
Qed.

Lemma in_keys_insertIndex n k k' v o :
  In k' (Obj.keys (Plain.insertIndex n k v o)) <-> k' = k \/ In k' (Obj.keys o).
Proof.
  unfold Obj.keys. induction o as [|[k1 v1] o IH]; simpl.
  - split; [intros [<-|[]]; auto|intros [->|[]]; auto].
  - destruct (arrayIndex k1) as [n1|]; [destruct (n <? n1)%N|]; simpl;
      rewrite ?IH; intuition (subst; auto).
Qed.

Lemma NoDup_keys_insertIndex n k v o :
  ~ In k (Obj.keys o) -> NoDup (Obj.keys o) ->
  NoDup (Obj.keys (Plain.insertIndex n k v o)).
Proof.
  pose proof (fun k' => in_keys_insertIndex n k k' v) as Hin.
  unfold Obj.keys in *.
  induction o as [|[k1 v1] o IH]; simpl; intros Hni Hnd.
  - constructor; [simpl; tauto|constructor].
  - destruct (arrayIndex k1) as [n1|]; [destruct (n <? n1)%N|]; simpl;
      try (constructor; [simpl; tauto|assumption]).
    inversion Hnd as [|? ? Hk1 Hnd']; subst. constructor.
    + rewrite Hin. intros [->|H]; tauto.
    + apply IH; tauto.
Qed.

Lemma getOwn_put k k' v o :
  Plain.getOwn k' (Plain.put k v o)
  = if k' =? k then Some v else Plain.getOwn k' o.
Proof.
  unfold Plain.put, Plain.getOwn.
  destruct (Obj.get k o) as [v0|] eqn:Hk.
  - destruct (String.eqb_spec k' k) as [->|Hne].
    + apply get_set_same.
    + apply get_set_other. congruence.
  - destruct (arrayIndex k) as [n|].
    + now apply getOwn_insertIndex.
    + apply get_None_notin in Hk. rewrite <- (set_notin k v o Hk).
      destruct (String.eqb_spec k' k) as [->|Hne].
      * apply get_set_same.
      * apply get_set_other. congruence.
Qed.

Lemma in_keys_put k k' v o :
  In k' (Plain.keys (Plain.put k v o)) <-> k' = k \/ In k' (Plain.keys o).
Proof.
  unfold Plain.put, Plain.getOwn.
  destruct (Obj.get k o) as [v0|] eqn:Hk.
  - apply in_keys_set.
  - destruct (arrayIndex k) as [n|].
    + apply in_keys_insertIndex.
    + apply get_None_notin in Hk. rewrite <- (set_notin k v o Hk).
      apply in_keys_set.
Qed.

Lemma NoDup_keys_put k v o :
  NoDup (Plain.keys o) -> NoDup (Plain.keys (Plain.put k v o)).
Proof.
  unfold Plain.put, Plain.getOwn. intros Hnd.
  destruct (Obj.get k o) as [v0|] eqn:Hk.
  - now apply NoDup_keys_set.
  - apply get_None_notin in Hk. destruct (arrayIndex k) as [n|].
    + now apply NoDup_keys_insertIndex.
    + rewrite <- (set_notin k v o Hk). now apply NoDup_keys_set.
Qed.

Lemma put_named k v o : arrayIndex k = None -> Plain.put k v o = Obj.set k v o.
Proof.
  unfold Plain.put, Plain.getOwn. intros ->.
  destruct (Obj.get k o) eqn:Hk; [reflexivity|].
  apply get_None_notin in Hk. now rewrite set_notin.
Qed.

Lemma getOwn_set k k' v o :
  Plain.getOwn k' (Plain.set k v o)
  = if (k' =? k) && negb (k =? "__proto__") then Some v else Plain.getOwn k' o.
Proof.
  unfold Plain.set. destruct (k =? "__proto__").
  - now rewrite andb_false_r.
  - rewrite andb_true_r. apply getOwn_put.
Qed.

Lemma in_keys_set_plain k k' v o :
  In k' (Plain.keys (Plain.set k v o))
  <-> (k' = k /\ k <> "__proto__") \/ In k' (Plain.keys o).
Proof.
  unfold Plain.set. destruct (String.eqb_spec k "__proto__") as [->|Hne].
  - tauto.
  - rewrite in_keys_put. tauto.
Qed.

Lemma NoDup_keys_set_plain k v o :
  NoDup (Plain.keys o) -> NoDup (Plain.keys (Plain.set k v o)).
Proof.
  unfold Plain.set. destruct (k =? "__proto__"); [auto|apply NoDup_keys_put].
Qed.

Lemma get_own k o v : Plain.getOwn k o = Some v -> Plain.get k o = Own v.
Proof. unfold Plain.get. now intros ->. Qed.

Lemma get_plain_name k o :
  inheritedName k = false ->
  Plain.get k o = match Plain.getOwn k o with Some v => Own v | None => Absent end.
Proof.
  unfold Plain.get, inheritedName. intros H. apply orb_false_iff in H as [-> ->].
  reflexivity.
Qed.

End ObjFacts.

(** ** Accumulating amounts under a key *)

Section BumpFacts.

Context {A : Arith}.
Implicit Types (o : Plain.t (jsv A)) (k l : string) (d : jsv A).

Lemma inheritedName_proto k : inheritedName k = false -> k <> "__proto__".
Proof. intros H ->. discriminate. Qed.

Lemma bump_proto d o : bump "__proto__" d o = o.
Proof. reflexivity. Qed.

Lemma getOwn_bump k k' d o :
  k <> "__proto__" ->
  Plain.getOwn k' (bump k d o)
  = if k' =? k then Some (jsAdd (orZero (Plain.get k o)) d) else Plain.getOwn k' o.
Proof.
  intros Hk. apply String.eqb_neq in Hk. unfold bump.
  rewrite !getOwn_set, Hk, andb_true_r.
  now destruct (k' =? k).
Qed.

Lemma getOwn_bump_other k k' d o :
  k' <> k -> Plain.getOwn k' (bump k d o) = Plain.getOwn k' o.
Proof.
  intros Hne. destruct (String.eqb_spec k "__proto__") as [->|Hk].
  - now rewrite bump_proto.
  - rewrite getOwn_bump by assumption. apply String.eqb_neq in Hne. now rewrite Hne.
Qed.

Lemma in_keys_bump k k' d o :
  In k' (Plain.keys (bump k d o))
  <-> (k' = k /\ k <> "__proto__") \/ In k' (Plain.keys o).
Proof.
  unfold bump. rewrite !in_keys_set_plain. tauto.
Qed.

Lemma NoDup_keys_bump k d o :
  NoDup (Plain.keys o) -> NoDup (Plain.keys (bump k d o)).
Proof.
  intros H. unfold bump. now apply NoDup_keys_set_plain, NoDup_keys_set_plain.
Qed.

Lemma orZero_plain k o :
  inheritedName k = false -> orZero (Plain.get k o) = orZeroOwn (Plain.getOwn k o).
Proof.
  intros H. rewrite get_plain_name by assumption.
  now destruct (Plain.getOwn k o).
Qed.

Lemma extend_cons (cur : option (jsv A)) d ds :
  extend cur (d :: ds) = extend (Some (jsAdd (orZeroOwn cur) d)) ds.
Proof. reflexivity. Qed.

Lemma extend_app (cur : option (jsv A)) ds ds' :
  extend cur (ds ++ ds') = extend (extend cur ds) ds'.
Proof. apply fold_left_app. Qed.

Lemma getOwn_accumulate l kds o :
  inheritedName l = false ->
  Plain.getOwn l (accumulate kds o) = extend (Plain.getOwn l o) (amountsOf l kds).
Proof.
  intros Hl. revert o. induction kds as [|[k d] kds IH]; intros o.
  - reflexivity.
  - unfold accumulate, amountsOf in *. cbn [fold_left filter fst snd].
    rewrite IH. destruct (String.eqb_spec k l) as [->|Hne].
    + cbn [map snd]. rewrite extend_cons. f_equal.
      rewrite getOwn_bump by now apply inheritedName_proto.
      now rewrite String.eqb_refl, orZero_plain.
    + f_equal. apply getOwn_bump_other. congruence.
Qed.

Lemma in_keys_accumulate l kds o :
  In l (Plain.keys (accumulate kds o))
  <-> In l (Plain.keys o) \/ (In l (map fst kds) /\ l <> "__proto__").
Proof.
  revert o. induction kds as [|[k d] kds IH]; intros o.
  - simpl. tauto.
  - unfold accumulate in *. cbn [fold_left map fst snd In].
    rewrite IH, in_keys_bump. split.
    + intros [[[-> H]|H]|[H1 H2]]; auto.
    + intros [H|[[->|H1] H2]]; auto.
Qed.

Lemma NoDup_keys_accumulate kds o :
  NoDup (Plain.keys o) -> NoDup (Plain.keys (accumulate kds o)).
Proof.
  revert o. induction kds as [|[k d] kds IH]; intros o H; [assumption|].
  unfold accumulate in *. cbn [fold_left]. apply IH. now apply NoDup_keys_bump.
Qed.

(** Numbers added to a number stay a number. *)
Lemma extend_numbers (x : num A) (xs : list (num A)) :
  extend (Some (VNum x)) (map VNum xs)
  = Some (VNum (fold_left (fun acc y => numAdd A (resetNum acc) y) xs x)).
Proof.
  revert x. induction xs as [|y xs IH]; intros x; [reflexivity|].
  cbn [map]. rewrite extend_cons.
  assert (jsAdd (orZeroOwn (Some (VNum x))) (VNum y)
          = VNum (numAdd A (resetNum x) y)) as ->.
  { unfold orZeroOwn, reset, resetNum. cbn [truthyV].
    now destruct (numFalsy A x). }
  apply IH.
Qed.

Lemma resetNum_zero : resetNum (numZero A) = numZero A.
Proof. unfold resetNum. now destruct (numFalsy A (numZero A)). Qed.

Lemma extend_none_numbers (xs : list (num A)) :
  extend None (map VNum xs)
  = match xs with
    | [] => None
    | _ :: _ => Some (VNum (runningSum xs))
    end.
Proof.
  destruct xs as [|x xs]; [reflexivity|].
  cbn [map]. rewrite extend_cons. cbn [orZeroOwn jsAdd toPrimitive].
  rewrite extend_numbers. unfold runningSum. cbn [fold_left].
  now rewrite resetNum_zero.
Qed.

Lemma orZeroOwn_extend_numbers (xs : list (num A)) :
  orZeroOwn (extend None (map VNum xs)) = VNum (resetNum (runningSum xs)).
Proof.
  rewrite extend_none_numbers. destruct xs as [|x xs].
  - unfold runningSum. cbn [fold_left orZeroOwn]. now rewrite resetNum_zero.
  - unfold orZeroOwn, reset, resetNum. cbn [truthyV].
    now destruct (numFalsy A (runningSum (x :: xs))).
Qed.

Lemma amountsOf_app {V : Type} l (kds kds' : list (string * V)) :
  amountsOf l (kds ++ kds') = amountsOf l kds ++ amountsOf l kds'.
Proof. unfold amountsOf. now rewrite filter_app, map_app. Qed.

Lemma amountsOf_map_numbers l (kxs : list (string * num A)) :
  amountsOf l (map (fun kx => (fst kx, VNum (snd kx))) kxs)
  = map VNum (amountsOf l kxs).
Proof.
  unfold amountsOf. induction kxs as [|[k x] kxs IH]; [reflexivity|].
  cbn [map filter fst snd]. destruct (k =? l); cbn [map snd]; now rewrite IH.
Qed.

End BumpFacts.

(** ** First occurrences *)

Section FirstSeen.

Variable T : Type.
Variable eqb : T -> T -> bool.
Hypothesis eqb_eq : forall x y, eqb x y = true <-> x = y.

Lemma eqb_same (x : T) : eqb x x = true.
Proof. now apply eqb_eq. Qed.

Lemma eqb_false_iff (x y : T) : eqb x y = false <-> x <> y.
Proof.
  rewrite <- eqb_eq. destruct (eqb x y); split; congruence.
Qed.

Lemma existsb_eqb_in (x : T) (l : list T) : existsb (eqb x) l = true <-> In x l.
Proof.
  rewrite existsb_exists. split.
  - intros [y [Hy E]]. apply eqb_eq in E. now subst.
  - intros H. exists x. split; [assumption|apply eqb_same].
Qed.

Lemma in_firstSeen (x : T) (l : list T) : In x (firstSeen eqb l) <-> In x l.
Proof.
  induction l as [|a l IH]; simpl; [tauto|].
  rewrite filter_In, IH, negb_true_iff, eqb_false_iff.
  split; [tauto|].
  intros [E|I]; [now left|].
  destruct (eqb a x) eqn:E.
  - left. now apply eqb_eq.
  - right. split; [assumption|]. now apply eqb_false_iff.
Qed.

Lemma NoDup_firstSeen (l : list T) : NoDup (firstSeen eqb l).
Proof.
  induction l as [|a l IH]; simpl; constructor.
  - rewrite filter_In, negb_true_iff, eqb_same. intros [_ H]. discriminate.
  - now apply NoDup_filter.
Qed.

Lemma firstSeen_snoc (l : list T) (x : T) :
  firstSeen eqb (l ++ [x])
  = if existsb (eqb x) l then firstSeen eqb l else firstSeen eqb l ++ [x].
Proof.
  induction l as [|a l IH]; simpl; [reflexivity|].
  rewrite IH. destruct (eqb x a) eqn:Exa; simpl.
  - apply eqb_eq in Exa. subst a.
    destruct (existsb (eqb x) l); [reflexivity|].
    rewrite filter_app. simpl. rewrite eqb_same. simpl. now rewrite app_nil_r.
  - destruct (existsb (eqb x) l); [reflexivity|].
    rewrite filter_app. simpl.
    assert (eqb a x = false) as ->.
    { apply eqb_false_iff. apply eqb_false_iff in Exa. congruence. }
    reflexivity.
Qed.

(** A list without repetition is its own list of first occurrences. *)
Lemma firstSeen_NoDup (l : list T) : NoDup l -> firstSeen eqb l = l.
Proof.
  induction 1 as [|a l Hni Hnd IH]; simpl; [reflexivity|].
  rewrite IH. f_equal. apply forallb_filter_id. apply forallb_forall.
  intros y Hy. apply negb_true_iff, eqb_false_iff. congruence.
Qed.

End FirstSeen.

Lemma strictEq_eq (a b : slot string) : strictEq a b = true <-> a = b.
Proof.
  destruct a as [x|x| |], b as [y|y| |]; simpl; try (split; congruence);
    rewrite String.eqb_eq; split; congruence.
Qed.

Lemma strictEq_refl (a : slot string) : strictEq a a = true.
Proof. now apply strictEq_eq. Qed.

Lemma NoDup_map_inj {T U : Type} (f : T -> U) (l : list T) (x y : T) :
  NoDup (map f l) -> In x l -> In y l -> f x = f y -> x = y.
Proof.
  induction l as [|a l IH]; simpl; [tauto|].
  intros Hnd Hx Hy E. inversion Hnd as [|? ? Hni Hnd']; subst.
  destruct Hx as [->|Hx], Hy as [->|Hy]; auto.
  - exfalso. apply Hni. rewrite E. now apply in_map.
  - exfalso. apply Hni. rewrite <- E. now apply in_map.
Qed.

Lemma NoDup_map_incl {T U : Type} (f : T -> U) (l L : list T) :
  NoDup (map f L) -> incl l L -> NoDup l -> NoDup (map f l).
Proof.
  intros HL Hincl Hnd. induction Hnd as [|a l Hni Hnd IH]; simpl; constructor.
  - intros H. apply in_map_iff in H as [y [E Hy]]. apply Hni.
    assert (y = a) as <-; [|assumption].
    apply (NoDup_map_inj f L); auto using in_eq, in_cons.
  - apply IH. intros z Hz. apply Hincl. now right.
Qed.

(** ** The taxonomy *)

Lemma isCategoryKey_in (k : string) : isCategoryKey k = true <-> In k groupLabels.
Proof.
  apply (existsb_eqb_in string String.eqb String.eqb_eq).
Qed.

Lemma isPrototypeFunction_in (k : string) :
  isPrototypeFunction k = true <-> In k objectPrototypeFunctions.
Proof.
  apply (existsb_eqb_in string String.eqb String.eqb_eq).
Qed.

Lemma taxonomy_own (t g : string) :
  taskToGroup t = Own g <-> Plain.getOwn t taskToGroupTable = Some g.
Proof.
  unfold taskToGroup, Plain.get.
  destruct (Plain.getOwn t taskToGroupTable) as [g'|].
  - split; congruence.
  - destruct (t =? "__proto__"); [|destruct (isPrototypeFunction t)];
      split; discriminate.
Qed.

Lemma taxonomy_label (t g : string) : taskToGroup t = Own g -> In g groupLabels.
Proof.
  intros H. apply taxonomy_own, get_Some_in in H.
  assert (Hall : forallb isCategoryKey (Plain.values taskToGroupTable) = true)
    by reflexivity.
  rewrite forallb_forall in Hall. apply isCategoryKey_in, Hall.
  change g with (snd (t, g)). now apply in_map.
Qed.

(** No task label of the taxonomy is the name of an inherited property. *)
Lemma taxonomy_keys_plain (t : string) :
  In t (Plain.keys taskToGroupTable) -> inheritedName t = false.
Proof.
  assert (Hall : forallb (fun k => negb (inheritedName k))
                   (Plain.keys taskToGroupTable) = true) by reflexivity.
  rewrite forallb_forall in Hall. intros H. now apply negb_true_iff, Hall.
Qed.

Lemma taxonomy_range (t : string) : In (taskToGroup t) lookupResults.
Proof.
  unfold lookupResults. rewrite !in_app_iff.
  destruct (taskToGroup t) as [g|member| |] eqn:E.
  - left. apply in_map. now apply taxonomy_label with t.
  - right. left. apply in_map. unfold taskToGroup, Plain.get in E.
    destruct (Plain.getOwn t taskToGroupTable); [discriminate|].
    destruct (t =? "__proto__"); [discriminate|].
    destruct (isPrototypeFunction t) eqn:F; [|discriminate].
    injection E as <-. now apply isPrototypeFunction_in.
  - right. right. simpl. auto.
  - right. right. simpl. auto.
Qed.

(** The lookup of a name every object inherits finds the inherited member;
    any other name is an own key of the taxonomy or is missing. *)
Lemma taxonomy_inherited (t : string) :
  inheritedName t = true ->
  taskToGroup t = if t =? "__proto__" then Proto else Inherited t.
Proof.
  intros H. unfold taskToGroup, Plain.get.
  destruct (Plain.getOwn t taskToGroupTable) as [g|] eqn:E.
  - apply get_Some_in in E. apply (in_map fst) in E.
    apply taxonomy_keys_plain in E. simpl in E. congruence.
  - unfold inheritedName in H. destruct (t =? "__proto__"); [reflexivity|].
    simpl in H. now rewrite H.
Qed.

Lemma taxonomy_plain (t : string) :
  inheritedName t = false ->
  taskToGroup t = match Plain.getOwn t taskToGroupTable with
                  | Some g => Own g
                  | None => Absent
                  end.
Proof. apply get_plain_name. Qed.

(** The property names the lookup results turn into are pairwise different,
    and different from [url]. *)
Lemma NoDup_propKey_range : NoDup (map propKey (Own "url" :: lookupResults)).
Proof.
  repeat (constructor;
          [cbn; intros H;
           repeat (destruct H as [H|H]; [discriminate H|]); exact H|]).
  constructor.
Qed.

(** None of them is an array index, [__proto__], or the name of an inherited
    member. *)
Lemma propKey_range_plain (g : slot string) :
  In g (Own "url" :: lookupResults) ->
  inheritedName (propKey g) = false /\ arrayIndex (propKey g) = None.
Proof.
  assert (Hall : forallb (fun g => negb (inheritedName (propKey g))
                                   && match arrayIndex (propKey g) with
                                      | None => true
                                      | Some _ => false
                                      end)
                   (Own "url" :: lookupResults) = true) by reflexivity.
  rewrite forallb_forall in Hall. intros H. specialize (Hall g H).
  apply andb_true_iff in Hall as [H1 H2]. apply negb_true_iff in H1.
  split; [assumption|]. now destruct (arrayIndex (propKey g)).
Qed.

Lemma propKey_range_inj (g g' : slot string) :
  In g (Own "url" :: lookupResults) -> In g' (Own "url" :: lookupResults) ->
  propKey g = propKey g' -> g = g'.
Proof.
  apply NoDup_map_inj, NoDup_propKey_range.
Qed.

Lemma taxonomy_not_url (t : string) : taskToGroup t <> Own "url".
Proof.
  intros H. apply taxonomy_label in H. apply isCategoryKey_in in H. discriminate.
Qed.

Lemma propKey_eqb_range (g g' : slot string) :
  In g lookupResults -> In g' lookupResults ->
  (propKey g =? propKey g') = strictEq g g'.
Proof.
  intros Hg Hg'. destruct (strictEq g g') eqn:E.
  - apply strictEq_eq in E. subst. apply String.eqb_refl.
  - apply String.eqb_neq. intros H.
    apply propKey_range_inj in H; [|now right|now right].
    apply strictEq_eq in H. congruence.
Qed.

(** ** Discovery of headings *)

Lemma find_categoryHeading (g : slot string) (gs : list (slot string)) :
  find (fun heading => strictEq (key heading) g) (map categoryHeading gs) = None
  <-> ~ In g gs.
Proof.
  induction gs as [|a gs IH]; simpl; [tauto|].
  destruct (strictEq a g) eqn:E.
  - apply strictEq_eq in E. split; [discriminate|tauto].
  - rewrite IH. split; [|tauto]. intros H [Heq|Hin]; [|tauto].
    subst. rewrite strictEq_refl in E. discriminate.
Qed.

Lemma discover_app (hs : list Heading) (gs gs' : list (slot string)) :
  discover hs (gs ++ gs') = discover (discover hs gs) gs'.
Proof.
  unfold discover. apply fold_left_app.
Qed.

Lemma discover_firstSeen (gs : list (slot string)) :
  ~ In (Own "url") gs ->
  discover [urlHeading] gs = urlHeading :: map categoryHeading (firstSeen strictEq gs).
Proof.
  induction gs as [|g gs IH] using rev_ind; [reflexivity|].
  intros Hni. rewrite in_app_iff in Hni. simpl in Hni.
  rewrite discover_app, IH by tauto.
  rewrite (firstSeen_snoc _ strictEq strictEq_eq).
  unfold discover at 1. cbn [fold_left find key urlHeading].
  assert (strictEq (Own "url") g = false) as ->.
  { destruct (strictEq (Own "url") g) eqn:E; [|reflexivity].
    apply strictEq_eq in E. symmetry in E. tauto. }
  destruct (existsb (strictEq g) gs) eqn:E.
  - apply (proj1 (existsb_eqb_in _ strictEq strictEq_eq g gs)) in E.
    apply (proj2 (in_firstSeen _ strictEq strictEq_eq g gs)) in E.
    destruct (find _ _) eqn:F; [reflexivity|].
    apply find_categoryHeading in F. contradiction.
  - assert (F : ~ In g (firstSeen strictEq gs)).
    { intros H. apply (proj1 (in_firstSeen _ strictEq strictEq_eq g gs)) in H.
      apply (proj2 (existsb_eqb_in _ strictEq strictEq_eq g gs)) in H.
      rewrite H in E. discriminate. }
    apply find_categoryHeading in F. rewrite F.
    now rewrite map_app.
Qed.

(** ** The extractor *)

Lemma forEachM_app {T S : Type} (f : S -> T -> result S) (xs ys : list T) (s : S) :
  forEachM f (xs ++ ys) s = (s' <- forEachM f xs s ;; forEachM f ys s').
Proof.
  revert s. induction xs as [|x xs IH]; intros s; simpl; [reflexivity|].
  destruct (f s x); simpl; [apply IH|reflexivity].
Qed.

Section ExtractorFacts.

Context {A : Arith} {Event : Type}.
Variable eventStyle : Event -> Style.

Implicit Types (tree : Tree A Event) (cs : list (TaskNode A Event)).
Implicit Types (s m : UrlTimingMap A) (tasks : Plain.t (jsv A)).


Lemma roundedSelfTime_number (c : TaskNode A Event) :
  hasDuration c = true -> roundedSelfTime (selfTime c) = Ok (rounded c).
Proof.
  unfold hasDuration, rounded, selfTimeOrZero, roundedSelfTime, falsy.
  destruct (truthy (selfTime c)); [|reflexivity].
  now destruct (selfTime c).
Qed.

Lemma roundedSelfTime_inv (v : jsval A) (q : num A) :
  roundedSelfTime v = Ok q -> falsy v || isNumber v = true.
Proof.
  unfold roundedSelfTime, falsy. destruct (truthy v); [|reflexivity].
  destruct v; simpl; try discriminate. reflexivity.
Qed.

Lemma perTask_ok tasks (c : TaskNode A Event) :
  hasDuration c = true ->
  perTask eventStyle tasks c
  = Ok (bump (labelOf eventStyle c) (VNum (rounded c)) tasks).
Proof.
  intros H. unfold perTask. now rewrite (roundedSelfTime_number c H).
Qed.

Lemma taskLoop_ok cs tasks :
  forallb hasDuration cs = true ->
  forEachM (perTask eventStyle) cs tasks
  = Ok (accumulate (roundedPairs eventStyle cs) tasks).
Proof.
  revert tasks. induction cs as [|c cs IH]; intros tasks H; simpl in *.
  - reflexivity.
  - apply andb_true_iff in H as [Hc Hcs].
    rewrite (perTask_ok _ _ Hc). simpl. now rewrite IH.
Qed.

Lemma taskLoop_inv cs tasks tasks' :
  forEachM (perTask eventStyle) cs tasks = Ok tasks' ->
  forallb hasDuration cs = true.
Proof.
  revert tasks. induction cs as [|c cs IH]; intros tasks E; simpl in *;
    [reflexivity|].
  unfold perTask at 1 in E.
  destruct (roundedSelfTime (selfTime c)) as [q|] eqn:R; simpl in E;
    [|discriminate].
  apply andb_true_iff. split; [now apply roundedSelfTime_inv with q|].
  now apply IH with (bump (title (eventStyle (event c))) (VNum q) tasks).
Qed.

Lemma perUrl_skipped s (url : string) (node : UrlNode A Event) :
  skipped url = true -> perUrl eventStyle s (url, node) = Ok s.
Proof.
  intros H. unfold perUrl. now rewrite H.
Qed.

(** What one step of the outer loop does when it does not throw. *)
Lemma perUrl_inv s m (u : string) (n : UrlNode A Event) :
  perUrl eventStyle s (u, n) = Ok m ->
  (skipped u = true /\ m = s)
  \/ (skipped u = false
      /\ exists cs,
           children n = Some cs
           /\ forallb hasDuration cs = true
           /\ forEachM (perTask eventStyle) cs Plain.empty
              = Ok (accumulate (roundedPairs eventStyle cs) Plain.empty)
           /\ m = Obj.set u (accumulate (roundedPairs eventStyle cs) Plain.empty) s).
Proof.
  unfold perUrl. destruct (skipped u).
  - intros E. injection E as <-. now left.
  - destruct (children n) as [cs|]; [|discriminate].
    destruct (forEachM (perTask eventStyle) cs Plain.empty) as [tasks|] eqn:Et;
      simpl; [|discriminate].
    intros E. injection E as <-. right. split; [reflexivity|]. exists cs.
    pose proof (taskLoop_inv cs Plain.empty tasks Et) as Hd.
    pose proof (taskLoop_ok cs Plain.empty Hd) as Ho.
    rewrite Ho in Et. injection Et as <-. auto.
Qed.

Lemma extractor_retained tree s :
  forEachM (perUrl eventStyle) tree s
  = forEachM (perUrl eventStyle) (retained tree) s.
Proof.
  revert s. induction tree as [|[url node] tree IH]; intros s.
  - reflexivity.
  - unfold retained. cbn [filter fst]. fold (retained tree).
    destruct (skipped url) eqn:E; cbn [negb forEachM].
    + rewrite perUrl_skipped by assumption. cbn [bind]. apply IH.
    + destruct (perUrl eventStyle s (url, node)); cbn [bind];
        [apply IH|reflexivity].
Qed.

Lemma extractor_step tree s m (u : string) (n : UrlNode A Event) :
  forEachM (perUrl eventStyle) ((u, n) :: tree) s = Ok m ->
  exists s', perUrl eventStyle s (u, n) = Ok s'
             /\ forEachM (perUrl eventStyle) tree s' = Ok m.
Proof.
  cbn [forEachM]. destruct (perUrl eventStyle s (u, n)) as [s'|];
    cbn [bind]; [|discriminate].
  intros E. now exists s'.
Qed.

Lemma extractor_keys tree s m :
  forEachM (perUrl eventStyle) tree s = Ok m ->
  forall u, In u (Obj.keys m) ->
            In u (Obj.keys s) \/ (skipped u = false /\ In u (map fst tree)).
Proof.
  revert s. induction tree as [|[url node] tree IH]; intros s E u Hu.
  - simpl in E. injection E as <-. now left.
  - apply extractor_step in E as [s' [E1 E]].
    destruct (IH _ E u Hu) as [Hin|[? ?]]; [|simpl; auto].
    apply perUrl_inv in E1 as [[_ ->]|[Hs [cs [_ [_ [_ ->]]]]]]; [auto|].
    apply in_keys_set in Hin as [->|Hin]; simpl; auto.
Qed.

Lemma extractor_get_other tree s m (url : string) :
  forEachM (perUrl eventStyle) tree s = Ok m ->
  ~ In url (map fst tree) -> Obj.get url m = Obj.get url s.
Proof.
  revert s. induction tree as [|[u node] tree IH]; intros s E Hni.
  - simpl in E. now injection E as <-.
  - apply extractor_step in E as [s' [E1 E]]. simpl in Hni.
    rewrite (IH _ E) by tauto.
    apply perUrl_inv in E1 as [[_ ->]|[Hs [cs [_ [_ [_ ->]]]]]]; [reflexivity|].
    apply get_set_other. tauto.
Qed.

(** With distinct URL keys, a retained entry of the tree is found in the
    result with the map its own children produce. *)
Lemma extractor_get tree s m (url : string) (node : UrlNode A Event) :
  NoDup (map fst tree) -> In (url, node) tree -> skipped url = false ->
  forEachM (perUrl eventStyle) tree s = Ok m ->
  exists cs,
    children node = Some cs
    /\ forallb hasDuration cs = true
    /\ Obj.get url m = Some (accumulate (roundedPairs eventStyle cs) Plain.empty).
Proof.
  revert s. induction tree as [|[u n] tree IH]; intros s Hnd Hin Hs E;
    [destruct Hin|].
  cbn [map fst] in Hnd. inversion Hnd as [|? ? Hni Hnd']; subst.
  apply extractor_step in E as [s' [E1 E]].
  destruct Hin as [Heq|Hin]; [|now apply (IH s')].
  injection Heq as -> ->.
  apply perUrl_inv in E1 as [[Hs' _]|[_ [cs [Hc [Hd [_ ->]]]]]]; [congruence|].
  exists cs. repeat split; try assumption.
  rewrite (extractor_get_other _ _ _ _ E Hni). apply get_set_same.
Qed.

(** A retained entry without [children] makes the extractor throw. *)
Lemma extractor_throws tree s (url : string) (node : UrlNode A Event) :
  In (url, node) tree -> skipped url = false -> children node = None ->
  exists e, forEachM (perUrl eventStyle) tree s = Throw e.
Proof.
  revert s. induction tree as [|[u n] tree IH]; intros s Hin Hs Hc;
    simpl in *; [tauto|].
  destruct (perUrl eventStyle s (u, n)) as [s'|e] eqn:E; simpl.
  - destruct Hin as [Heq|Hin]; [|now apply IH].
    injection Heq as -> ->. unfold perUrl in E. rewrite Hs, Hc in E. discriminate.
  - now exists e.
Qed.

Lemma processable_ok tree s :
  forallb (fun e => processable (snd e)) tree = true ->
  exists m, forEachM (perUrl eventStyle) tree s = Ok m.
Proof.
  revert s. induction tree as [|[u n] l IH]; intros s H.
  - now exists s.
  - cbn [forallb snd] in H. apply andb_true_iff in H as [Hp Hl].
    unfold processable in Hp. destruct (children n) as [cs|] eqn:Hc;
      [|discriminate].
    cbn [forEachM]. destruct (skipped u) eqn:Hs.
    + rewrite perUrl_skipped by assumption. cbn [bind]. now apply IH.
    + unfold perUrl. rewrite Hs, Hc, (taskLoop_ok _ _ Hp). cbn [bind].
      now apply IH.
Qed.

Lemma extractor_ok tree s :
  extractable tree = true ->
  exists m, forEachM (perUrl eventStyle) tree s = Ok m.
Proof.
  rewrite extractor_retained. apply processable_ok.
Qed.

Lemma extractor_ok_inv tree s m :
  forEachM (perUrl eventStyle) tree s = Ok m -> extractable tree = true.
Proof.
  unfold extractable.
  revert s. induction tree as [|[u n] tree IH]; intros s E; [reflexivity|].
  apply extractor_step in E as [s' [E1 E]].
  unfold retained. cbn [filter fst]. fold (retained tree).
  apply perUrl_inv in E1 as [[Hs _]|[Hs [cs [Hc [Hd _]]]]]; rewrite Hs; cbn [negb].
  - now apply (IH s').
  - cbn [forallb snd]. unfold processable at 1. rewrite Hc, Hd. cbn [andb].
    now apply (IH s').
Qed.

Lemma extractor_NoDup tree s m :
  forEachM (perUrl eventStyle) tree s = Ok m ->
  NoDup (Obj.keys s) -> NoDup (Obj.keys m).
Proof.
  revert s. induction tree as [|[u n] tree IH]; intros s E Hnd.
  - simpl in E. now injection E as <-.
  - apply extractor_step in E as [s' [E1 E]]. apply (IH _ E).
    apply perUrl_inv in E1 as [[_ ->]|[_ [cs [_ [_ [_ ->]]]]]]; [assumption|].
    now apply NoDup_keys_set.
Qed.

Lemma retained_app tree tree' :
  retained (tree ++ tree') = retained tree ++ retained tree'.
Proof.
  apply filter_app.
Qed.

Lemma extractor_snoc_inv tree (e : string * UrlNode A Event) s m :
  forEachM (perUrl eventStyle) (tree ++ [e]) s = Ok m ->
  exists m0, forEachM (perUrl eventStyle) tree s = Ok m0
             /\ perUrl eventStyle m0 e = Ok m.
Proof.
  rewrite forEachM_app.
  destruct (forEachM (perUrl eventStyle) tree s) as [m0|]; simpl; [|discriminate].
  destruct (perUrl eventStyle m0 e) as [m1|] eqn:E; simpl; [|discriminate].
  intros H. injection H as <-. now exists m0.
Qed.

Lemma extractor_keys_order tree m :
  forEachM (perUrl eventStyle) tree Obj.empty = Ok m ->
  Obj.keys m = firstSeen String.eqb (map fst (retained tree)).
Proof.
  revert m. induction tree as [|[u n] tree IH] using rev_ind; intros m E.
  - simpl in E. now injection E as <-.
  - apply extractor_snoc_inv in E as [m0 [E0 E1]]. specialize (IH m0 E0).
    rewrite retained_app, map_app.
    apply perUrl_inv in E1 as [[Hs ->]|[Hs [cs [_ [_ [_ ->]]]]]].
    + unfold retained at 2. cbn [filter fst]. rewrite Hs. cbn [negb map].
      now rewrite app_nil_r.
    + unfold retained at 2. cbn [filter fst]. rewrite Hs. cbn [negb map fst].
      rewrite (firstSeen_snoc _ String.eqb String.eqb_eq), <- IH.
      destruct (existsb (String.eqb u) (map fst (retained tree))) eqn:X.
      * apply keys_set_in. rewrite IH.
        apply (in_firstSeen _ String.eqb String.eqb_eq).
        now apply (existsb_eqb_in _ String.eqb String.eqb_eq).
      * rewrite set_notin; [unfold Obj.keys; now rewrite map_app|].
        rewrite IH. intros H.
        apply (proj1 (in_firstSeen _ String.eqb String.eqb_eq u _)) in H.
        apply (proj2 (existsb_eqb_in _ String.eqb String.eqb_eq u _)) in H.
        rewrite H in X. discriminate.
Qed.

(** Every duration map of the result is the accumulation of the rounded
    self-times of the children of a retained node. *)
Lemma extractor_values tree s m (url : string) (durations : Plain.t (jsv A)) :
  forEachM (perUrl eventStyle) tree s = Ok m ->
  In (url, durations) m ->
  In (url, durations) s
  \/ exists node cs,
       In (url, node) tree /\ skipped url = false /\ children node = Some cs
       /\ forallb hasDuration cs = true
       /\ durations = accumulate (roundedPairs eventStyle cs) Plain.empty.
Proof.
  revert s. induction tree as [|[u n] tree IH]; intros s E Hin.
  - simpl in E. injection E as <-. now left.
  - apply extractor_step in E as [s' [E1 E]].
    destruct (IH _ E Hin) as [Hs'|[node [cs [H1 H2]]]];
      [|right; exists node, cs; split; [now right|assumption]].
    apply perUrl_inv in E1 as [[_ ->]|[Hsk [cs [Hc [Hd [_ ->]]]]]]; [now left|].
    assert (Hnew : (url, durations)
                   = (u, accumulate (roundedPairs eventStyle cs) Plain.empty) ->
                   exists node cs0,
                     In (url, node) ((u, n) :: tree) /\ skipped url = false
                     /\ children node = Some cs0
                     /\ forallb hasDuration cs0 = true
                     /\ durations
                        = accumulate (roundedPairs eventStyle cs0) Plain.empty).
    { intros Heq. injection Heq as -> ->. exists n, cs.
      repeat split; try assumption. now left. }
    clear E IH Hin. induction s as [|[k v] s IHs]; simpl in Hs'.
    + destruct Hs' as [Heq|[]]. right. apply Hnew. now symmetry.
    + destruct (String.eqb_spec u k) as [->|Hne].
      * destruct Hs' as [Heq|Hs']; [|left; now right].
        right. apply Hnew. now symmetry.
      * destruct Hs' as [Heq|Hs']; [left; now left|].
        destruct (IHs Hs') as [H|H]; [left; now right|now right].
Qed.

Lemma in_retainedChildren tree (url : string) (node : UrlNode A Event) cs
  (c : TaskNode A Event) :
  In (url, node) tree -> skipped url = false -> children node = Some cs ->
  In c cs -> In c (retainedChildren tree).
Proof.
  intros Hin Hs Hc Hcs. unfold retainedChildren. apply in_flat_map.
  exists (url, node). split.
  - apply filter_In. split; [assumption|]. cbn [fst]. now rewrite Hs.
  - cbn [snd]. unfold childrenOf. now rewrite Hc.
Qed.

End ExtractorFacts.

(** ** The aggregation loops in closed form *)

Section AggregationFacts.

Context {A : Arith}.
Implicit Types (m : UrlTimingMap A) (durations groups : Plain.t (jsv A)).

Lemma addTask_step (t : jsv A) (hs : list Heading) groups (task : string) (d : jsv A) :
  addTask (t, hs, groups) (task, d)
  = (jsAdd t d, discover hs [taskToGroup task],
     bump (propKey (taskToGroup task)) d groups).
Proof. reflexivity. Qed.

Lemma addTask_fold durations (t : jsv A) (hs : list Heading) groups :
  fold_left addTask durations (t, hs, groups)
  = (fold_left jsAdd (Plain.values durations) t,
     discover hs (map taskToGroup (Plain.keys durations)),
     accumulate (byCategory durations) groups).
Proof.
  revert t hs groups.
  induction durations as [|[task d] durations IH]; intros t hs groups.
  - reflexivity.
  - cbn [fold_left]. rewrite addTask_step, IH. reflexivity.
Qed.

Lemma groupUrl_fold m (st : GroupState A) :
  fold_left groupUrl m st
  = {| gsTotal := fold_left jsAdd (durationsInOrder m) (gsTotal st);
       gsHeadings := discover (gsHeadings st) (map taskToGroup (labelsInOrder m));
       gsExtendedInfo :=
         fold_left (fun info e => recordInfo (fst e) (snd e) info) m
           (gsExtendedInfo st);
       gsGroupsPerUrl :=
         gsGroupsPerUrl st ++ map (fun e => (fst e, groupsOf (snd e))) m |}.
Proof.
  revert st. induction m as [|[url durations] m IH]; intros st.
  - destruct st. simpl. now rewrite app_nil_r.
  - cbn [fold_left]. rewrite IH. unfold groupUrl. rewrite addTask_fold.
    cbn [gsTotal gsHeadings gsExtendedInfo gsGroupsPerUrl fst snd map].
    unfold durationsInOrder, labelsInOrder. cbn [flat_map snd].
    rewrite fold_left_app, map_app, discover_app, <- app_assoc. reflexivity.
Qed.

(** *** Columns of the table *)

Lemma in_columns m (g : slot string) :
  In g (columns m) <-> exists t, In t (labelsInOrder m) /\ taskToGroup t = g.
Proof.
  unfold columns. rewrite (in_firstSeen _ strictEq strictEq_eq), in_map_iff.
  split; intros [t [H1 H2]]; exists t; tauto.
Qed.

Lemma NoDup_columns m : NoDup (columns m).
Proof.
  apply (NoDup_firstSeen _ strictEq strictEq_eq).
Qed.

Lemma columns_range m : incl (columns m) lookupResults.
Proof.
  intros g H. apply in_columns in H as [t [_ <-]]. apply taxonomy_range.
Qed.

Lemma columns_not_url m : ~ In (Own "url") (columns m).
Proof.
  intros H. apply in_columns in H as [t [_ H]]. now apply taxonomy_not_url in H.
Qed.

Lemma NoDup_propKey_columns m : NoDup (map propKey (Own "url" :: columns m)).
Proof.
  apply (NoDup_map_incl propKey _ (Own "url" :: lookupResults)).
  - apply NoDup_propKey_range.
  - intros g [<-|H]; [now left|right; exact (columns_range m g H)].
  - constructor; [apply columns_not_url|apply NoDup_columns].
Qed.

Lemma labels_in_order m (url : string) durations :
  In (url, durations) m -> incl (Plain.keys durations) (labelsInOrder m).
Proof.
  intros H t Ht. unfold labelsInOrder. apply in_flat_map.
  exists (url, durations). auto.
Qed.

(** *** Groups of a URL *)

Lemma amountsOf_category (g : slot string) durations :
  In g lookupResults ->
  amountsOf (propKey g) (byCategory durations) = categoryDurations g durations.
Proof.
  intros Hg. unfold amountsOf, byCategory, categoryDurations.
  induction durations as [|[t d] durations IH]; [reflexivity|].
  cbn [map filter fst snd].
  rewrite (propKey_eqb_range _ _ (taxonomy_range t) Hg).
  destruct (strictEq (taskToGroup t) g); cbn [map snd]; now rewrite IH.
Qed.

Lemma getOwn_groupsOf (g : slot string) durations :
  In g lookupResults ->
  Plain.getOwn (propKey g) (groupsOf durations)
  = extend None (categoryDurations g durations).
Proof.
  intros Hg. unfold groupsOf. rewrite getOwn_accumulate.
  - now rewrite amountsOf_category.
  - apply propKey_range_plain. now right.
Qed.

Lemma cellArgument_groupsOf (g : slot string) durations :
  In g lookupResults ->
  cellArgument (groupsOf durations) (categoryHeading g)
  = orZeroOwn (extend None (categoryDurations g durations)).
Proof.
  intros Hg. unfold cellArgument. cbn [key categoryHeading].
  rewrite orZero_plain by (apply propKey_range_plain; now right).
  now rewrite getOwn_groupsOf.
Qed.


(** *** Every duration is filed under exactly one column *)




End AggregationFacts.

(** ** The audit in closed form *)

Lemma fold_set_fresh {H V : Type} (kf : H -> string) (vf : H -> V)
  (hs : list H) (acc : Plain.t V) :
  NoDup (Plain.keys acc ++ map kf hs) ->
  (forall h, In h hs -> kf h <> "__proto__" /\ arrayIndex (kf h) = None) ->
  fold_left (fun res h => Plain.set (kf h) (vf h) res) hs acc
  = acc ++ map (fun h => (kf h, vf h)) hs.
Proof.
  revert acc. induction hs as [|h hs IH]; intros acc Hnd Hplain; simpl.
  - now rewrite app_nil_r.
  - destruct (Hplain h (or_introl eq_refl)) as [Hp Hi].
    unfold Plain.set at 2. apply String.eqb_neq in Hp. rewrite Hp.
    rewrite (put_named _ _ _ Hi), set_notin.
    + rewrite IH, <- app_assoc; [reflexivity| |].
      * unfold Plain.keys. rewrite map_app, <- app_assoc. exact Hnd.
      * intros h' Hh'. apply Hplain. now right.
    + simpl in Hnd. apply NoDup_remove_2 in Hnd. rewrite in_app_iff in Hnd.
      unfold Obj.keys, Plain.keys in *. tauto.
Qed.

Lemma get_propKey_row {V : Type} (f : slot string -> V)
  (cols : list (slot string)) (g : slot string) :
  NoDup (map propKey cols) -> In g cols ->
  Obj.get (propKey g) (map (fun c => (propKey c, f c)) cols) = Some (f g).
Proof.
  intros Hnd Hin. apply in_get_NoDup.
  - unfold Obj.keys. rewrite map_map. exact Hnd.
  - apply in_map_iff. now exists g.
Qed.

Section AuditFacts.

Context {A : Arith} {Event : Type}.
Variable eventStyle : Event -> Style.
Variable formatMilliseconds : jsv A -> option nat -> string.

Implicit Types (tree : Tree A Event) (m : UrlTimingMap A) (r : AuditResult A).

Lemma makeRow_columns (cols : list (slot string)) (url : string)
  (groups : Plain.t (jsv A)) :
  NoDup (map propKey (Own "url" :: cols)) -> incl cols lookupResults ->
  makeRow formatMilliseconds (urlHeading :: map categoryHeading cols) (url, groups)
  = rowOver formatMilliseconds cols url groups.
Proof.
  intros Hnd Hincl. unfold makeRow, rowOver. cbn [fold_left].
  rewrite (fold_set_fresh
             (fun h => propKey (key h))
             (fun h => formatMilliseconds (cellArgument groups h) (Some 1%nat))).
  - rewrite map_map. reflexivity.
  - rewrite map_map. exact Hnd.
  - intros h Hh. apply in_map_iff in Hh as [g [<- Hg]]. cbn [key categoryHeading].
    destruct (propKey_range_plain g) as [H1 H2]; [right; now apply Hincl|].
    split; [now apply inheritedName_proto|assumption].
Qed.

Lemma auditTimings_closed m :
  auditTimings formatMilliseconds m
  = {| score := belowThreshold (fold_left jsAdd (durationsInOrder m) (VNum (numZero A)));
       rawValue := fold_left jsAdd (durationsInOrder m) (VNum (numZero A));
       displayValue :=
         formatMilliseconds
           (fold_left jsAdd (durationsInOrder m) (VNum (numZero A))) None;
       details :=
         makeTableDetails
           (urlHeading :: map categoryHeading (columns m))
           (map (fun e => rowOver formatMilliseconds (columns m) (fst e)
                            (groupsOf (snd e))) m);
       extendedInfo :=
         fold_left (fun info e => recordInfo (fst e) (snd e) info) m
           {| infoOwn := Plain.empty; infoPrototype := None |} |}.
Proof.
  unfold auditTimings. rewrite groupUrl_fold.
  cbn [gsTotal gsHeadings gsExtendedInfo gsGroupsPerUrl initialState app].
  assert (Hh : discover [urlHeading] (map taskToGroup (labelsInOrder m))
               = urlHeading :: map categoryHeading (columns m)).
  { apply discover_firstSeen. intros H. apply in_map_iff in H as [t [H _]].
    now apply taxonomy_not_url in H. }
  rewrite Hh, map_map. f_equal. f_equal.
  apply map_ext. intros [url durations]. cbn [fst snd].
  apply makeRow_columns; [apply NoDup_propKey_columns|apply columns_range].
Qed.

Lemma rawValue_closed m :
  rawValue (auditTimings formatMilliseconds m)
  = fold_left jsAdd (durationsInOrder m) (VNum (numZero A)).
Proof. now rewrite auditTimings_closed. Qed.

Lemma items_closed m :
  items (details (auditTimings formatMilliseconds m))
  = map (fun e => rowOver formatMilliseconds (columns m) (fst e) (groupsOf (snd e))) m.
Proof. now rewrite auditTimings_closed. Qed.

Lemma headings_closed m :
  headings (details (auditTimings formatMilliseconds m))
  = urlHeading :: map categoryHeading (columns m).
Proof. now rewrite auditTimings_closed. Qed.

Lemma audit_of_timings tree m :
  getExecutionTimingsByURL eventStyle tree = Ok m ->
  audit eventStyle formatMilliseconds tree = Ok (auditTimings formatMilliseconds m).
Proof.
  intros E. unfold audit. now rewrite E.
Qed.

Lemma audit_inv tree r :
  audit eventStyle formatMilliseconds tree = Ok r ->
  exists m, getExecutionTimingsByURL eventStyle tree = Ok m
            /\ r = auditTimings formatMilliseconds m.
Proof.
  unfold audit. destruct (getExecutionTimingsByURL eventStyle tree) as [m|e];
    simpl; [|discriminate].
  intros E. injection E as <-. now exists m.
Qed.

(** The cell of a row under a column. *)
Lemma getOwn_rowOver (cols : list (slot string)) (url : string)
  (groups : Plain.t (jsv A)) (g : slot string) :
  NoDup (map propKey (Own "url" :: cols)) -> In g cols ->
  Plain.getOwn (propKey g) (rowOver formatMilliseconds cols url groups)
  = Some (formatMilliseconds (cellArgument groups (categoryHeading g)) (Some 1%nat)).
Proof.
  intros Hnd Hin. unfold rowOver, Plain.getOwn. cbn [Obj.get].
  cbn [map propKey] in Hnd. inversion Hnd as [|? ? Hni Hnd']; subst.
  destruct (String.eqb_spec (propKey g) "url") as [E|_].
  - exfalso. apply Hni. rewrite <- E. now apply in_map.
  - now apply (get_propKey_row
                 (fun c => formatMilliseconds
                             (cellArgument groups (categoryHeading c)) (Some 1%nat))).
Qed.

End AuditFacts.

(** ** What the entries hold *)

Section EntryFacts.

Context {V : Type}.
Implicit Types (o : Plain.t V) (k : string) (v : V).

Lemma in_obj_set k v o e : In e (Obj.set k v o) -> e = (k, v) \/ In e o.
Proof.
  induction o as [|[k1 v1] o IH]; simpl.
  - intros [<-|[]]. now left.
  - destruct (k =? k1); simpl; intros [<-|H]; auto.
    destruct (IH H); auto.
Qed.

Lemma in_insertIndex (n : N) k v o e :
  In e (Plain.insertIndex n k v o) -> e = (k, v) \/ In e o.
Proof.
  induction o as [|[k1 v1] o IH]; simpl.
  - intros [<-|[]]. now left.
  - destruct (arrayIndex k1) as [n1|]; [destruct (n <? n1)%N|]; simpl;
      intros [<-|H]; auto.
    destruct (IH H); auto.
Qed.

Lemma in_put k v o e : In e (Plain.put k v o) -> e = (k, v) \/ In e o.
Proof.
  unfold Plain.put. destruct (Plain.getOwn k o).
  - apply in_obj_set.
  - destruct (arrayIndex k).
    + apply in_insertIndex.
    + rewrite in_app_iff. simpl. intros [H|[<-|[]]]; auto.
Qed.

Lemma in_set_plain k v o e :
  In e (Plain.set k v o) -> (k <> "__proto__" /\ e = (k, v)) \/ In e o.
Proof.
  unfold Plain.set. destruct (String.eqb_spec k "__proto__") as [->|Hne].
  - now right.
  - intros H. apply in_put in H as [->|H]; auto.
Qed.

End EntryFacts.

Section NumberFacts.

Context {A : Arith}.
Implicit Types (o : Plain.t (jsv A)) (k l : string) (d : jsv A).

Lemma in_bump k d o (e : string * jsv A) :
  In e (bump k d o) ->
  In e o
  \/ (k <> "__proto__" /\ fst e = k
      /\ (snd e = orZero (Plain.get k o)
          \/ snd e = jsAdd (orZero (Plain.get k o)) d)).
Proof.
  unfold bump. intros H.
  apply in_set_plain in H as [[Hk ->]|H]; [right; cbn [fst snd]; auto|].
  apply in_set_plain in H as [[Hk ->]|H]; [right; cbn [fst snd]; auto|].
  now left.
Qed.

(** A property of values that the reads [o[k] || 0] and the additions of
    the amounts preserve holds of every entry. *)
Lemma accumulate_invariant (P : jsv A -> Prop) (kds : list (string * jsv A)) o :
  (forall k v, In (k, v) o -> P v) ->
  (forall k d o', In (k, d) kds -> k <> "__proto__" ->
                  (forall k' v, In (k', v) o' -> P v) ->
                  P (orZero (Plain.get k o'))
                  /\ P (jsAdd (orZero (Plain.get k o')) d)) ->
  forall k v, In (k, v) (accumulate kds o) -> P v.
Proof.
  revert o. induction kds as [|[k0 d0] kds IH]; intros o Ho Hstep k v Hin.
  - now apply (Ho k).
  - unfold accumulate in *. cbn [fold_left fst snd] in Hin.
    apply (IH (bump k0 d0 o)) with k; [| |exact Hin].
    + intros k1 v1 H1. apply in_bump in H1 as [H1|[Hk [_ H1]]];
        [now apply (Ho k1)|].
      cbn [snd] in H1.
      destruct (Hstep k0 d0 o (or_introl eq_refl) Hk Ho) as [Ha Hb].
      destruct H1 as [->| ->]; assumption.
    + intros k1 d1 o' H1. apply Hstep. now right.
Qed.

Lemma get_own_in k o (v : jsv A) : Plain.get k o = Own v -> In (k, v) o.
Proof.
  unfold Plain.get. destruct (Plain.getOwn k o) as [v'|] eqn:E.
  - intros H. injection H as <-. now apply get_Some_in.
  - destruct (k =? "__proto__"); [|destruct (isPrototypeFunction k)]; discriminate.
Qed.




(** The numbers among the entries keep a property that zero has and that
    addition preserves. *)
Lemma accumulate_numbers_keep (P : num A -> Prop) (kds : list (string * jsv A)) o :
  P (numZero A) ->
  (forall x y, P x -> P y -> P (numAdd A x y)) ->
  (forall k x, In (k, VNum x) o -> P x) ->
  (forall k d, In (k, d) kds -> exists x, d = VNum x /\ P x) ->
  forall k x, In (k, VNum x) (accumulate kds o) -> P x.
Proof.
  intros H0 Hadd Ho Hk k x Hin.
  apply (accumulate_invariant (fun v => forall y, v = VNum y -> P y) kds o)
    with (k := k) (v := VNum x); [| |exact Hin|reflexivity].
  - intros k1 v1 H1 y ->. now apply (Ho k1).
  - intros k1 d o' H1 Hp Ho'. destruct (Hk k1 d H1) as [z [-> Hz]].
    assert (Hc : forall y, orZero (Plain.get k1 o') = VNum y -> P y).
    { destruct (Plain.get k1 o') as [v|member| |] eqn:E; cbn [orZero];
        try discriminate.
      - apply get_own_in in E. destruct (truthyV v).
        + intros y ->. now apply (Ho' k1 (VNum y)).
        + intros y Hy. injection Hy as <-. exact H0.
      - intros y Hy. injection Hy as <-. exact H0. }
    split; [exact Hc|].
    destruct (orZero (Plain.get k1 o')) as [y|t|member|]; cbn [jsAdd toPrimitive];
      try discriminate.
    intros w Hw. injection Hw as <-. apply Hadd; [now apply Hc|assumption].
Qed.

Lemma fold_jsAdd_numbers (xs : list (num A)) (x : num A) :
  fold_left jsAdd (map VNum xs) (VNum x) = VNum (fold_left (numAdd A) xs x).
Proof.
  revert x. induction xs as [|y xs IH]; intros x; [reflexivity|].
  cbn [map fold_left]. apply IH.
Qed.

Lemma fold_jsAdd_text (ds : list (jsv A)) (v : jsv A) :
  (forall x, v <> VNum x) -> forall x, fold_left jsAdd ds v <> VNum x.
Proof.
  revert v. induction ds as [|d ds IH]; intros v Hv; [exact Hv|].
  cbn [fold_left]. apply IH. intros x.
  destruct v as [y|t|member|]; [now destruct (Hv y)| | |];
    destruct d; discriminate.
Qed.

Lemma fold_jsAdd_number_inv (ds : list (jsv A)) (x y : num A) :
  fold_left jsAdd ds (VNum x) = VNum y -> exists xs, ds = map VNum xs.
Proof.
  revert x. induction ds as [|d ds IH]; intros x H; [now exists []|].
  cbn [fold_left] in H. destruct d as [z|t|member|].
  - cbn [jsAdd toPrimitive] in H. destruct (IH _ H) as [xs ->]. now exists (z :: xs).
  - exfalso. revert H. now apply fold_jsAdd_text.
  - exfalso. revert H. now apply fold_jsAdd_text.
  - exfalso. revert H. now apply fold_jsAdd_text.
Qed.

Lemma numbers_list (ds : list (jsv A)) :
  (forall v, In v ds -> exists x, v = VNum x) -> exists xs, ds = map VNum xs.
Proof.
  induction ds as [|d ds IH]; intros H; [now exists []|].
  destruct (H d (or_introl eq_refl)) as [x ->].
  destruct IH as [xs ->]; [intros v Hv; apply H; now right|].
  now exists (x :: xs).
Qed.

Lemma plainSum_fold (xs : list (num A)) :
  fold_left jsAdd (map VNum xs) (VNum (numZero A)) = VNum (plainSum xs).
Proof. apply fold_jsAdd_numbers. Qed.

(** A property of numbers that zero has and addition preserves holds of the
    running sums and of the plain sums. *)
Lemma runningSum_keep (P : num A -> Prop) (xs : list (num A)) :
  P (numZero A) -> (forall x y, P x -> P y -> P (numAdd A x y)) ->
  (forall x, In x xs -> P x) -> P (runningSum xs).
Proof.
  intros H0 Hadd. unfold runningSum.
  enough (Hgen : forall a, P a -> (forall x, In x xs -> P x) ->
                 P (fold_left (fun acc x => numAdd A (resetNum acc) x) xs a))
    by (intros Hxs; now apply Hgen).
  induction xs as [|x xs IH]; intros a Ha Hxs; [exact Ha|].
  cbn [fold_left]. apply IH.
  - apply Hadd; [|apply Hxs; now left]. unfold resetNum.
    now destruct (numFalsy A a).
  - intros y Hy. apply Hxs. now right.
Qed.

Lemma plainSum_keep (P : num A -> Prop) (xs : list (num A)) :
  P (numZero A) -> (forall x y, P x -> P y -> P (numAdd A x y)) ->
  (forall x, In x xs -> P x) -> P (plainSum xs).
Proof.
  intros H0 Hadd. unfold plainSum.
  enough (Hgen : forall a, P a -> (forall x, In x xs -> P x) ->
                 P (fold_left (numAdd A) xs a))
    by (intros Hxs; now apply Hgen).
  induction xs as [|x xs IH]; intros a Ha Hxs; [exact Ha|].
  cbn [fold_left]. apply IH.
  - apply Hadd; [assumption|apply Hxs; now left].
  - intros y Hy. apply Hxs. now right.
Qed.

Lemma categoryDurations_numbers (g : slot string) (durations : Plain.t (jsv A)) :
  (forall t d, In (t, d) durations -> taskToGroup t = g -> exists x, d = VNum x) ->
  exists xs, categoryDurations g durations = map VNum xs.
Proof.
  intros H. apply numbers_list. intros v Hv. unfold categoryDurations in Hv.
  apply in_map_iff in Hv as [[t d] [<- Hin]]. apply filter_In in Hin as [Hin E].
  cbn [fst snd] in *. apply strictEq_eq in E. now apply (H t).
Qed.

End NumberFacts.

(** ** The duration map of one URL *)

Section DurationFacts.

Context {A : Arith} {Event : Type}.
Variable eventStyle : Event -> Style.

Implicit Types (cs : list (TaskNode A Event)) (l : string).
Implicit Types (o : Plain.t (jsv A)).

Lemma getOwn_accumulate_own l (kds : list (string * jsv A)) o (v : jsv A) :
  l <> "__proto__" -> Plain.getOwn l o = Some v ->
  Plain.getOwn l (accumulate kds o) = extend (Some v) (amountsOf l kds).
Proof.
  intros Hl. revert o v. induction kds as [|[k d] kds IH]; intros o v Ho.
  - exact Ho.
  - unfold accumulate, amountsOf in *. cbn [fold_left filter fst snd].
    destruct (String.eqb_spec k l) as [->|Hne].
    + cbn [map snd]. rewrite extend_cons.
      apply IH. rewrite getOwn_bump, String.eqb_refl by assumption.
      rewrite (get_own _ _ _ Ho). reflexivity.
    + apply IH. rewrite getOwn_bump_other by congruence. exact Ho.
Qed.

(** The first amount filed under a key the object does not own is added to
    what the key reads as on an empty object: [0], or an inherited
    function. *)
Lemma getOwn_accumulate_fresh l (kds : list (string * jsv A)) o :
  l <> "__proto__" -> Plain.getOwn l o = None ->
  Plain.getOwn l (accumulate kds o)
  = match amountsOf l kds with
    | [] => None
    | d :: ds => extend (Some (jsAdd (orZero (Plain.get l Plain.empty)) d)) ds
    end.
Proof.
  intros Hl. revert o. induction kds as [|[k d] kds IH]; intros o Ho.
  - exact Ho.
  - unfold amountsOf in *. cbn [filter fst snd].
    change (accumulate ((k, d) :: kds) o) with (accumulate kds (bump k d o)).
    destruct (String.eqb_spec k l) as [->|Hne].
    + cbn [map snd].
      apply getOwn_accumulate_own; [assumption|].
      rewrite getOwn_bump, String.eqb_refl by assumption.
      unfold Plain.get. rewrite Ho. reflexivity.
    + apply IH. rewrite getOwn_bump_other by congruence. exact Ho.
Qed.

Lemma extend_text (t : jstext A) (ds : list (jsv A)) :
  exists u, extend (Some (VText t)) ds = Some (VText u).
Proof.
  revert t. induction ds as [|d ds IH]; intros t; [now exists t|].
  rewrite extend_cons. cbn [orZeroOwn reset truthyV].
  destruct d; cbn [jsAdd toPrimitive]; apply IH.
Qed.

Lemma amountsOf_roundedPairs l cs :
  amountsOf l (roundedPairs eventStyle cs) = map VNum (roundedOf eventStyle l cs).
Proof.
  unfold amountsOf, roundedPairs, roundedOf.
  induction cs as [|c cs IH]; [reflexivity|].
  cbn [map filter fst]. destruct (labelOf eventStyle c =? l); cbn [map snd];
    now rewrite IH.
Qed.

Lemma getOwn_extracted l cs :
  inheritedName l = false ->
  Plain.getOwn l (accumulate (roundedPairs eventStyle cs) Plain.empty)
  = match roundedOf eventStyle l cs with
    | [] => None
    | _ :: _ => Some (VNum (runningSum (roundedOf eventStyle l cs)))
    end.
Proof.
  intros Hl. rewrite getOwn_accumulate by assumption.
  rewrite amountsOf_roundedPairs. apply extend_none_numbers.
Qed.

Lemma getOwn_extracted_function l cs :
  isPrototypeFunction l = true ->
  Plain.getOwn l (accumulate (roundedPairs eventStyle cs) Plain.empty)
  = match roundedOf eventStyle l cs with
    | [] => None
    | x :: xs =>
        extend (Some (VText (TAfter (TSource (SrcFunction l)) x))) (map VNum xs)
    end.
Proof.
  intros Hl.
  assert (Hp : l <> "__proto__") by (intros ->; discriminate).
  rewrite getOwn_accumulate_fresh by (assumption || reflexivity).
  rewrite amountsOf_roundedPairs.
  destruct (roundedOf eventStyle l cs) as [|x xs]; [reflexivity|].
  cbn [map]. unfold Plain.get. cbn [Plain.getOwn Plain.empty Obj.get].
  apply String.eqb_neq in Hp. now rewrite Hp, Hl.
Qed.

Lemma in_keys_extracted l cs :
  In l (Plain.keys (accumulate (roundedPairs eventStyle cs) Plain.empty))
  <-> (exists c, In c cs /\ labelOf eventStyle c = l) /\ l <> "__proto__".
Proof.
  rewrite in_keys_accumulate. cbn [Plain.keys Plain.empty map In].
  unfold roundedPairs. rewrite map_map. cbn [fst]. rewrite in_map_iff.
  split.
  - intros [[]|[[c [E Hc]] Hp]]. split; [now exists c|assumption].
  - intros [[c [Hc E]] Hp]. right. split; [now exists c|assumption].
Qed.

Lemma NoDup_keys_extracted cs :
  NoDup (Plain.keys (accumulate (roundedPairs eventStyle cs) Plain.empty)).
Proof. apply NoDup_keys_accumulate. constructor. Qed.

Lemma roundedOf_nonempty l cs :
  (exists c, In c cs /\ labelOf eventStyle c = l) <-> roundedOf eventStyle l cs <> [].
Proof.
  unfold roundedOf. split.
  - intros [c [Hc E]] H. apply map_eq_nil in H.
    assert (Hin : In c (filter (fun c => labelOf eventStyle c =? l) cs)).
    { apply filter_In. split; [assumption|]. now apply String.eqb_eq. }
    rewrite H in Hin. destruct Hin.
  - intros H. destruct (filter (fun c => labelOf eventStyle c =? l) cs)
      as [|c f] eqn:F; [now destruct H|].
    assert (Hin : In c (filter (fun c => labelOf eventStyle c =? l) cs))
      by (rewrite F; now left).
    apply filter_In in Hin as [Hc E]. exists c. split; [assumption|].
    now apply String.eqb_eq.
Qed.

(** An entry under a name no object inherits holds the running sum of the
    rounded self-times of the children displayed under that name. *)
Lemma extracted_number l (v : jsv A) cs :
  In (l, v) (accumulate (roundedPairs eventStyle cs) Plain.empty) ->
  isPrototypeFunction l = false ->
  v = VNum (runningSum (roundedOf eventStyle l cs)).
Proof.
  intros Hin Hf.
  assert (Hk : In l (Plain.keys
                       (accumulate (roundedPairs eventStyle cs) Plain.empty))).
  { change l with (fst (l, v)). now apply in_map. }
  apply in_keys_extracted in Hk as [Hc Hp].
  apply (in_get_NoDup _ _ _ (NoDup_keys_extracted cs)) in Hin.
  change (Obj.get l ?o) with (Plain.getOwn l o) in Hin.
  rewrite getOwn_extracted in Hin.
  - destruct (roundedOf eventStyle l cs); [discriminate|congruence].
  - unfold inheritedName. apply String.eqb_neq in Hp. now rewrite Hp, Hf.
Qed.

(** An entry under the name of an inherited function holds a string. *)
Lemma extracted_text l (v : jsv A) cs :
  In (l, v) (accumulate (roundedPairs eventStyle cs) Plain.empty) ->
  isPrototypeFunction l = true ->
  exists t, v = VText t.
Proof.
  intros Hin Hf.
  apply (in_get_NoDup _ _ _ (NoDup_keys_extracted cs)) in Hin.
  change (Obj.get l ?o) with (Plain.getOwn l o) in Hin.
  rewrite getOwn_extracted_function in Hin by assumption.
  destruct (roundedOf eventStyle l cs) as [|x xs]; [discriminate|].
  destruct (extend_text (TAfter (TSource (SrcFunction l)) x) (map VNum xs))
    as [u Hu].
  rewrite Hu in Hin. injection Hin as <-. now exists u.
Qed.

End DurationFacts.

(** ** What the extractor returns *)

Section ExtractedFacts.

Context {A : Arith} {Event : Type}.
Variable eventStyle : Event -> Style.

Implicit Types (tree : Tree A Event) (m : UrlTimingMap A).

Lemma extracted_from_children tree m (url : string) (durations : Plain.t (jsv A)) :
  getExecutionTimingsByURL eventStyle tree = Ok m ->
  In (url, durations) m ->
  exists node cs,
    In (url, node) tree /\ skipped url = false /\ children node = Some cs
    /\ forallb hasDuration cs = true
    /\ durations = accumulate (roundedPairs eventStyle cs) Plain.empty.
Proof.
  intros E Hin.
  destruct (extractor_values eventStyle tree _ m url durations E Hin) as [[]|H].
  exact H.
Qed.

Lemma extracted_NoDup tree m :
  getExecutionTimingsByURL eventStyle tree = Ok m -> NoDup (Obj.keys m).
Proof.
  intros E. apply (extractor_NoDup eventStyle tree Obj.empty m E). constructor.
Qed.

(** No duration map has an own property [__proto__]. *)
Lemma extracted_labels_not_proto tree m (t : string) :
  getExecutionTimingsByURL eventStyle tree = Ok m ->
  In t (labelsInOrder m) -> t <> "__proto__".
Proof.
  intros E Ht. unfold labelsInOrder in Ht.
  apply in_flat_map in Ht as [[url durations] [Hin Ht]]. cbn [snd] in Ht.
  destruct (extracted_from_children tree m url durations E Hin)
    as [node [cs [_ [_ [_ [_ ->]]]]]].
  now apply in_keys_extracted in Ht.
Qed.

(** An entry under a name that is not a member function of
    [Object.prototype] is a number. *)
Lemma extracted_plain_number tree m (url : string) (durations : Plain.t (jsv A))
  (t : string) (d : jsv A) :
  getExecutionTimingsByURL eventStyle tree = Ok m ->
  In (url, durations) m -> In (t, d) durations ->
  isPrototypeFunction t = false -> exists x, d = VNum x.
Proof.
  intros E Hin Ht Hf.
  destruct (extracted_from_children tree m url durations E Hin)
    as [node [cs [_ [_ [_ [_ ->]]]]]].
  eexists. now apply (extracted_number eventStyle t d cs).
Qed.

(** When no retained child is displayed under the name of such a function,
    every duration is a number. *)
Lemma extracted_all_numbers tree m :
  getExecutionTimingsByURL eventStyle tree = Ok m ->
  (forall c, In c (retainedChildren tree) ->
             isPrototypeFunction (labelOf eventStyle c) = false) ->
  exists xs, durationsInOrder m = map VNum xs.
Proof.
  intros E Hl. apply numbers_list. intros v Hv. unfold durationsInOrder in Hv.
  apply in_flat_map in Hv as [[url durations] [Hin Hv]]. cbn [snd] in Hv.
  apply in_map_iff in Hv as [[t d] [<- Ht]]. cbn [snd].
  destruct (extracted_from_children tree m url durations E Hin)
    as [node [cs [Hn [Hs [Hc [_ Hd]]]]]].
  apply (extracted_plain_number tree m url durations t d E Hin Ht).
  assert (Hk : In t (Plain.keys durations))
    by (change t with (fst (t, d)); now apply in_map).
  rewrite Hd in Hk. apply in_keys_extracted in Hk as [[c [Hcs <-]] _].
  apply Hl. now apply (in_retainedChildren tree url node cs).
Qed.

Lemma skipped_false (url : string) :
  skipped url = false <-> url <> "" /\ url <> "about:blank".
Proof.
  unfold skipped. rewrite orb_false_iff, !String.eqb_neq. tauto.
Qed.

Lemma extracted_keys_retained tree m :
  getExecutionTimingsByURL eventStyle tree = Ok m ->
  forall url, In url (Obj.keys m) -> skipped url = false.
Proof.
  intros E url Hin.
  destruct (extractor_keys eventStyle tree _ _ E url Hin) as [[]|[H _]].
  exact H.
Qed.

End ExtractedFacts.

Lemma taxonomy_absent_plain (t : string) :
  taskToGroup t = Absent -> inheritedName t = false.
Proof.
  intros H. destruct (inheritedName t) eqn:E; [|reflexivity].
  rewrite (taxonomy_inherited t E) in H. destruct (t =? "__proto__"); discriminate.
Qed.

Lemma taxonomy_own_plain (t g : string) :
  taskToGroup t = Own g -> inheritedName t = false.
Proof.
  intros H. destruct (inheritedName t) eqn:E; [|reflexivity].
  rewrite (taxonomy_inherited t E) in H. destruct (t =? "__proto__"); discriminate.
Qed.

Lemma taxonomy_proto (t : string) : taskToGroup t = Proto -> t = "__proto__".
Proof.
  unfold taskToGroup, Plain.get. destruct (Plain.getOwn t taskToGroupTable);
    [discriminate|].
  destruct (String.eqb_spec t "__proto__"); [auto|].
  destruct (isPrototypeFunction t); discriminate.
Qed.

Lemma taxonomy_key (t : string) :
  In t (Plain.keys taskToGroupTable)
  <-> exists c, taskToGroup t = Own c /\ In c groupLabels.
Proof.
  split.
  - intros H. destruct (Plain.getOwn t taskToGroupTable) as [c|] eqn:E.
    + exists c. apply taxonomy_own in E. split; [assumption|].
      now apply taxonomy_label with t.
    + apply get_None_notin in E. contradiction.
  - intros [c [H _]]. apply taxonomy_own, get_Some_in in H.
    change t with (fst (t, c)). now apply in_map.
Qed.

Lemma inheritedName_function (t : string) :
  inheritedName t = false -> isPrototypeFunction t = false.
Proof.
  unfold inheritedName. intros H. now apply orb_false_iff in H.
Qed.




(** * The claims *)

Section Claims.

Context {A : Arith} {Event : Type}.
Variable eventStyle : Event -> Style.
Variable formatMilliseconds : jsv A -> option nat -> string.

Implicit Types (tree : Tree A Event) (m : UrlTimingMap A) (r : AuditResult A).


(** C2.  The [score] of the audit result is true exactly when [rawValue] is
    a number strictly below 4000; at exactly 4000 the score is false. *)
Theorem score_iff_below_threshold tree r :
  audit eventStyle formatMilliseconds tree = Ok r ->
  (score r = true
   <-> exists x, rawValue r = VNum x /\ numLt A x (numThreshold A) = true)
  /\ (rawValue r = VNum (numThreshold A) -> score r = false).
Proof.
  intros E. apply audit_inv in E as [m [_ ->]].
  unfold auditTimings. cbn [score rawValue].
  set (total := gsTotal (fold_left groupUrl m initialState)). split.
  - unfold belowThreshold. destruct total as [x|t|member|]; cbn [toPrimitive].
    + split; [intros H; now exists x|]. intros [y [Hy H]]. now injection Hy as ->.
    + split; [discriminate|]. intros [y [Hy _]]. discriminate.
    + split; [discriminate|]. intros [y [Hy _]]. discriminate.
    + split; [discriminate|]. intros [y [Hy _]]. discriminate.
  - intros ->. unfold belowThreshold. cbn [toPrimitive].
    apply threshold_lt_threshold.
Qed.

(** C3.  A URL node keyed by the empty string or by ["about:blank"] is
    skipped: no key of the UrlTimingMap and no row of the table is such a
    URL, and the map and the audit result are those of the tree without these
    nodes, so their children contribute nothing to the grand total. *)
Theorem skipped_urls_leave_no_trace tree m r :
  getExecutionTimingsByURL eventStyle tree = Ok m ->
  audit eventStyle formatMilliseconds tree = Ok r ->
  (forall url, In url (Obj.keys m) -> url <> "" /\ url <> "about:blank")
  /\ (forall row, In row (items (details r)) ->
        exists url, Plain.getOwn "url" row = Some url
                    /\ url <> "" /\ url <> "about:blank")
  /\ getExecutionTimingsByURL eventStyle (retained tree) = Ok m
  /\ audit eventStyle formatMilliseconds (retained tree) = Ok r.
Proof.
  intros Em Er.
  assert (Hk : forall url, In url (Obj.keys m) -> url <> "" /\ url <> "about:blank").
  { intros url Hin. apply skipped_false.
    now apply (extracted_keys_retained eventStyle tree m). }
  assert (Em' : getExecutionTimingsByURL eventStyle (retained tree) = Ok m).
  { unfold getExecutionTimingsByURL in *. now rewrite <- extractor_retained. }
  rewrite (audit_of_timings eventStyle formatMilliseconds tree m Em) in Er.
  injection Er as <-.
  repeat split; try (apply Hk; assumption); try assumption.
  - intros row Hrow. rewrite items_closed in Hrow.
    apply in_map_iff in Hrow as [[url durations] [<- Hin]].
    exists url. split; [reflexivity|]. apply Hk.
    change url with (fst (url, durations)). now apply in_map.
  - now apply audit_of_timings.
Qed.

(** C4 (amended).  The headings list has no two entries with the same key;
    its first entry is the fixed [url] heading; each following heading
    carries, as key and as text, the result of the taxonomy lookup of a task
    label, each result once, in the order in which the outer iteration over
    URLs and the inner iteration over labels first meets it.  That result is
    a category exactly for the labels that are keys of the taxonomy; for any
    other label the lookup result ([undefined], or a member inherited from
    [Object.prototype]) gets a heading all the same. *)
Theorem headings_in_discovery_order tree m r :
  getExecutionTimingsByURL eventStyle tree = Ok m ->
  audit eventStyle formatMilliseconds tree = Ok r ->
  NoDup (map key (headings (details r)))
  /\ headings (details r)
     = urlHeading
       :: map categoryHeading
            (firstSeen strictEq (map taskToGroup (labelsInOrder m)))
  /\ (forall t, In t (labelsInOrder m) ->
        In (categoryHeading (taskToGroup t)) (tl (headings (details r)))
        /\ ((exists c, taskToGroup t = Own c /\ In c groupLabels)
            <-> In t (Plain.keys taskToGroupTable)))
  /\ (forall h, In h (tl (headings (details r))) ->
        exists t, In t (labelsInOrder m) /\ h = categoryHeading (taskToGroup t)).
Proof.
  intros Em Er.
  rewrite (audit_of_timings eventStyle formatMilliseconds tree m Em) in Er.
  injection Er as <-.
  rewrite headings_closed. split; [|split; [reflexivity|split]].
  - cbn [map key urlHeading]. rewrite map_map. cbn [key categoryHeading].
    rewrite map_id. constructor; [apply columns_not_url|apply NoDup_columns].
  - intros t Ht. cbn [tl]. split.
    + apply in_map. apply in_columns. now exists t.
    + symmetry. apply taxonomy_key.
  - intros h Hh. cbn [tl] in Hh. apply in_map_iff in Hh as [g [<- Hg]].
    apply in_columns in Hg as [t [Ht <-]]. now exists t.
Qed.

(** C9.  The builder always returns a complete result with one row per URL of
    the UrlTimingMap; when the map is empty the result has no rows, a
    [rawValue] of 0 and a passing score. *)
Theorem empty_timings_pass tree m :
  getExecutionTimingsByURL eventStyle tree = Ok m ->
  exists r,
    audit eventStyle formatMilliseconds tree = Ok r
    /\ List.length (items (details r)) = List.length m
    /\ (m = Obj.empty ->
        r = {| score := true;
               rawValue := VNum (numZero A);
               displayValue := formatMilliseconds (VNum (numZero A)) None;
               details := makeTableDetails [urlHeading] [];
               extendedInfo :=
                 {| infoOwn := Plain.empty; infoPrototype := None |} |}).
Proof.
  intros Em. exists (auditTimings formatMilliseconds m).
  split; [now apply audit_of_timings|]. split.
  - rewrite items_closed. apply length_map.
  - intros ->. unfold auditTimings. cbn. unfold belowThreshold. cbn.
    now rewrite zero_lt_threshold.
Qed.

(** A tree with no retained URL node yields the empty UrlTimingMap. *)
Lemma no_retained_url_empty_timings tree :
  retained tree = [] -> getExecutionTimingsByURL eventStyle tree = Ok Obj.empty.
Proof.
  intros H. unfold getExecutionTimingsByURL. rewrite extractor_retained, H.
  reflexivity.
Qed.

(** C5 (amended).  A task label that is neither a key of the taxonomy nor
    the name of a property inherited from [Object.prototype] looks up
    [undefined].  Its duration is a number, it is one of the durations added
    into [rawValue], and it is attributed to one more column of the table: a
    heading whose key and text are [undefined] is among the headings, and the
    row of the task's URL carries, under the property ["undefined"], the
    formatted running sum of that URL's durations whose lookup is
    [undefined]. *)
Theorem unknown_label_gets_undefined_column tree m r url durations t d :
  getExecutionTimingsByURL eventStyle tree = Ok m ->
  audit eventStyle formatMilliseconds tree = Ok r ->
  In (url, durations) m -> In (t, d) durations ->
  ~ In t (Plain.keys taskToGroupTable) -> inheritedName t = false ->
  taskToGroup t = Absent
  /\ rawValue r = fold_left jsAdd (durationsInOrder m) (VNum (numZero A))
  /\ In d (durationsInOrder m)
  /\ In (categoryHeading Absent) (headings (details r))
  /\ exists x xs row,
       d = VNum x
       /\ categoryDurations Absent durations = map VNum xs
       /\ In x xs
       /\ In row (items (details r))
       /\ Plain.getOwn "url" row = Some url
       /\ Plain.getOwn "undefined" row
          = Some (formatMilliseconds (VNum (resetNum (runningSum xs))) (Some 1%nat)).
Proof.
  intros Em Er Hu Ht Hkey Hplain.
  assert (Habs : taskToGroup t = Absent).
  { rewrite taxonomy_plain by assumption.
    destruct (Plain.getOwn t taskToGroupTable) eqn:E; [|reflexivity].
    apply get_Some_in in E. exfalso. apply Hkey.
    change t with (fst (t, s)). now apply in_map. }
  rewrite (audit_of_timings eventStyle formatMilliseconds tree m Em) in Er.
  injection Er as <-.
  split; [exact Habs|]. split; [apply rawValue_closed|].
  assert (Hcol : In Absent (columns m)).
  { apply in_columns. exists t. split; [|exact Habs].
    apply (labels_in_order m url durations Hu).
    change t with (fst (t, d)). now apply in_map. }
  split.
  { unfold durationsInOrder. apply in_flat_map. exists (url, durations).
    split; [assumption|]. cbn [snd]. change d with (snd (t, d)). now apply in_map. }
  split.
  { rewrite headings_closed. right. now apply in_map. }
  destruct (extracted_plain_number eventStyle tree m url durations t d Em Hu Ht)
    as [x Hx]; [now apply inheritedName_function|].
  destruct (categoryDurations_numbers Absent durations) as [xs Hxs].
  { intros t' d' Ht' Ha.
    apply (extracted_plain_number eventStyle tree m url durations t' d' Em Hu Ht').
    now apply inheritedName_function, taxonomy_absent_plain. }
  exists x, xs, (rowOver formatMilliseconds (columns m) url (groupsOf durations)).
  split; [exact Hx|]. split; [exact Hxs|]. split.
  { assert (Hd : In d (categoryDurations Absent durations)).
    { unfold categoryDurations. apply in_map_iff. exists (t, d).
      split; [reflexivity|]. apply filter_In. split; [assumption|].
      cbn [fst]. rewrite Habs. reflexivity. }
    rewrite Hxs, Hx in Hd. apply in_map_iff in Hd as [y [Hy Hin]].
    now injection Hy as <-. }
  split.
  { rewrite items_closed. apply in_map_iff. now exists (url, durations). }
  split; [reflexivity|].
  change "undefined" with (propKey Absent).
  rewrite getOwn_rowOver by (apply NoDup_propKey_columns || assumption).
  rewrite cellArgument_groupsOf by now apply (columns_range m).
  now rewrite Hxs, orZeroOwn_extend_numbers.
Qed.

(** C6 (amended).  A retained URL node without [children] makes the
    extractor, and with it the audit, throw. *)
Theorem missing_children_throw tree url node :
  In (url, node) tree -> skipped url = false -> children node = None ->
  (exists e, getExecutionTimingsByURL eventStyle tree = Throw e)
  /\ (exists e, audit eventStyle formatMilliseconds tree = Throw e).
Proof.
  intros Hin Hs Hc.
  destruct (extractor_throws eventStyle tree Obj.empty url node Hin Hs Hc)
    as [e He].
  split; exists e; [exact He|].
  unfold audit, getExecutionTimingsByURL. now rewrite He.
Qed.

(** A retained URL node whose [children] are present but empty yields the
    empty duration map. *)
Lemma empty_children_empty_map tree m url node :
  NoDup (map fst tree) -> In (url, node) tree -> skipped url = false ->
  children node = Some [] ->
  getExecutionTimingsByURL eventStyle tree = Ok m ->
  Obj.get url m = Some Plain.empty.
Proof.
  intros Hnd Hin Hs Hc Em.
  destruct (extractor_get eventStyle tree _ m url node Hnd Hin Hs Em)
    as [cs [Hcs [_ Hg]]].
  rewrite Hc in Hcs. injection Hcs as <-. exact Hg.
Qed.




End Claims.

(** * Further properties of the pipeline *)

Section Further.

Context {A : Arith} {Event : Type}.
Variable eventStyle : Event -> Style.
Variable formatMilliseconds : jsv A -> option nat -> string.

Implicit Types (tree : Tree A Event) (m : UrlTimingMap A) (r : AuditResult A).

(** X1. The extractor returns a map exactly when every retained URL node has
    [children] and every child of a retained node has a [selfTime] that is a
    number or falsy; otherwise it throws.  Skipped nodes are never
    inspected. *)
Theorem extractor_succeeds_iff tree :
  (exists m, getExecutionTimingsByURL eventStyle tree = Ok m)
  <-> extractable tree = true.
Proof.
  split.
  - intros [m E]. now apply (extractor_ok_inv eventStyle tree Obj.empty m).
  - apply extractor_ok.
Qed.

(** X2. The keys of the UrlTimingMap are the retained URLs of the tree, each
    once, in the order in which the tree first lists them. *)
Theorem timings_keys_in_tree_order tree m :
  getExecutionTimingsByURL eventStyle tree = Ok m ->
  Obj.keys m = firstSeen String.eqb (map fst (retained tree))
  /\ NoDup (Obj.keys m).
Proof.
  intros E. pose proof (extractor_keys_order eventStyle tree m E) as Hk.
  split; [exact Hk|]. rewrite Hk. apply (NoDup_firstSeen _ String.eqb String.eqb_eq).
Qed.

(** X5. [rawValue] is never a negative number when no task node below a
    retained URL node has a negative self-time.  "Not negative" is any
    property of numbers that 0 has and that addition and the rounding
    [Number(x.toFixed(1))] preserve.  When moreover no retained task is
    displayed under the name of a member function of [Object.prototype],
    [rawValue] is a number. *)
Theorem rawValue_nonneg (nonneg : num A -> Prop) tree m r :
  nonneg (numZero A) ->
  (forall x y, nonneg x -> nonneg y -> nonneg (numAdd A x y)) ->
  (forall x, nonneg x -> nonneg (numToFixed1 A x)) ->
  (forall c, In c (retainedChildren tree) ->
             nonneg (selfTimeOrZero (selfTime c))) ->
  getExecutionTimingsByURL eventStyle tree = Ok m ->
  audit eventStyle formatMilliseconds tree = Ok r ->
  (forall x, rawValue r = VNum x -> nonneg x)
  /\ ((forall c, In c (retainedChildren tree) ->
                 isPrototypeFunction (labelOf eventStyle c) = false) ->
      exists x, rawValue r = VNum x /\ nonneg x).
Proof.
  intros H0 Hadd Hfix Hpos Em Er.
  rewrite (audit_of_timings eventStyle formatMilliseconds tree m Em) in Er.
  injection Er as <-. rewrite rawValue_closed.
  assert (Hall : forall x, In (VNum x) (durationsInOrder m) -> nonneg x).
  { intros x Hx. unfold durationsInOrder in Hx.
    apply in_flat_map in Hx as [[url durations] [Hin Hx]]. cbn [snd] in Hx.
    apply in_map_iff in Hx as [[t d] [Hd Ht]]. cbn [snd] in Hd. subst d.
    destruct (extracted_from_children eventStyle tree m url durations Em Hin)
      as [node [cs [Hn [Hs [Hc [_ ->]]]]]].
    apply (accumulate_numbers_keep nonneg (roundedPairs eventStyle cs)
             Plain.empty H0 Hadd) with t; [intros k y []| |exact Ht].
    intros k d Hk. unfold roundedPairs in Hk.
    apply in_map_iff in Hk as [c [Heq Hcs]]. injection Heq as <- <-.
    exists (rounded c). split; [reflexivity|]. apply Hfix, Hpos.
    now apply (in_retainedChildren tree url node cs). }
  assert (Hsum : forall xs, durationsInOrder m = map VNum xs ->
                            nonneg (plainSum xs)).
  { intros xs Hxs. apply plainSum_keep; try assumption.
    intros x Hx. apply Hall. rewrite Hxs. now apply in_map. }
  split.
  - intros x Hx. destruct (fold_jsAdd_number_inv _ _ _ Hx) as [xs Hxs].
    rewrite Hxs, plainSum_fold in Hx. injection Hx as <-. now apply Hsum.
  - intros Hl. destruct (extracted_all_numbers eventStyle tree m Em Hl) as [xs Hxs].
    exists (plainSum xs). split; [rewrite Hxs; apply plainSum_fold|now apply Hsum].
Qed.

(** X6. The table has one row per retained URL, in the order in which the
    tree first lists the URLs, and the [url] cell of each row is that URL. *)
Theorem rows_in_tree_order tree m r :
  getExecutionTimingsByURL eventStyle tree = Ok m ->
  audit eventStyle formatMilliseconds tree = Ok r ->
  map (Plain.getOwn "url") (items (details r))
  = map Some (firstSeen String.eqb (map fst (retained tree))).
Proof.
  intros Em Er.
  rewrite (audit_of_timings eventStyle formatMilliseconds tree m Em) in Er.
  injection Er as <-. rewrite items_closed, map_map.
  rewrite <- (extractor_keys_order eventStyle tree m Em). unfold Obj.keys.
  rewrite map_map. reflexivity.
Qed.

(** X7. Every row has exactly one cell per heading, in heading order: the
    property names of a row are those of the heading keys, and no two of them
    coincide, so no cell is overwritten. *)
Theorem rows_are_rectangular tree r row :
  audit eventStyle formatMilliseconds tree = Ok r ->
  In row (items (details r)) ->
  Plain.keys row = map (fun h => propKey (key h)) (headings (details r))
  /\ NoDup (Plain.keys row).
Proof.
  intros Er Hrow.
  apply (audit_inv eventStyle formatMilliseconds) in Er as [m [_ ->]].
  rewrite items_closed in Hrow. apply in_map_iff in Hrow as [e [<- _]].
  rewrite headings_closed. unfold rowOver, Plain.keys.
  cbn [map fst key urlHeading propKey]. rewrite !map_map.
  cbn [fst key categoryHeading].
  split; [reflexivity|]. apply (NoDup_propKey_columns m).
Qed.

(** X8. In the row of a URL, the cell under a heading other than [url] is
    the formatted value, or 0 when it is missing or falsy, of what the
    additions of that URL's durations whose taxonomy lookup is the heading's
    key produce, in order; when these durations are numbers, that is their
    running sum. *)
Theorem category_cell_is_category_total tree m r url durations h row :
  getExecutionTimingsByURL eventStyle tree = Ok m ->
  audit eventStyle formatMilliseconds tree = Ok r ->
  In (url, durations) m ->
  In h (headings (details r)) -> h <> urlHeading ->
  In row (items (details r)) -> Plain.getOwn "url" row = Some url ->
  Plain.getOwn (propKey (key h)) row
  = Some (formatMilliseconds
            (orZeroOwn (extend None (categoryDurations (key h) durations)))
            (Some 1%nat))
  /\ (forall xs, categoryDurations (key h) durations = map VNum xs ->
        Plain.getOwn (propKey (key h)) row
        = Some (formatMilliseconds (VNum (resetNum (runningSum xs))) (Some 1%nat))).
Proof.
  intros Em Er Hu Hh Hne Hrow Hurl.
  rewrite (audit_of_timings eventStyle formatMilliseconds tree m Em) in Er.
  injection Er as <-. rewrite headings_closed in Hh. rewrite items_closed in Hrow.
  destruct Hh as [Hh|Hh]; [congruence|].
  apply in_map_iff in Hh as [g [<- Hg]]. cbn [key categoryHeading].
  apply in_map_iff in Hrow as [[url' durations'] [<- Hin]].
  cbn [fst snd] in *. injection Hurl as ->.
  pose proof (extracted_NoDup eventStyle tree m Em) as Hnd.
  assert (durations' = durations) as ->.
  { apply (in_get_NoDup _ _ _ Hnd) in Hin. apply (in_get_NoDup _ _ _ Hnd) in Hu.
    congruence. }
  assert (Hcell : Plain.getOwn (propKey g)
                    (rowOver formatMilliseconds (columns m) url (groupsOf durations))
                  = Some (formatMilliseconds
                            (orZeroOwn (extend None (categoryDurations g durations)))
                            (Some 1%nat))).
  { rewrite getOwn_rowOver by (apply NoDup_propKey_columns || assumption).
    now rewrite cellArgument_groupsOf by now apply (columns_range m). }
  split; [exact Hcell|].
  intros xs Hxs. now rewrite Hcell, Hxs, orZeroOwn_extend_numbers.
Qed.

Lemma recordInfo_fold m (info : ExtendedInfo A) (url : string) :
  NoDup (Obj.keys m) ->
  let info' := fold_left (fun info e => recordInfo (fst e) (snd e) info) m info in
  (url <> "__proto__" ->
   Plain.getOwn url (infoOwn info')
   = match Obj.get url m with
     | Some durations => Some durations
     | None => Plain.getOwn url (infoOwn info)
     end)
  /\ infoPrototype info'
     = match Obj.get "__proto__" m with
       | Some durations => Some durations
       | None => infoPrototype info
       end
  /\ (In url (Plain.keys (infoOwn info'))
      <-> In url (Plain.keys (infoOwn info))
          \/ (In url (Obj.keys m) /\ url <> "__proto__")).
Proof.
  revert info. induction m as [|[u d] m IH]; intros info Hnd; cbn zeta.
  - cbn. tauto.
  - cbn [Obj.keys map fst] in Hnd. inversion Hnd as [|? ? Hni Hnd']; subst.
    cbn [fold_left fst snd].
    destruct (IH (recordInfo u d info) Hnd') as [H1 [H2 H3]]. cbn zeta in *.
    assert (Hnone : Obj.get u m = None) by now apply get_None_notin.
    split; [|split].
    + intros Hp. rewrite (H1 Hp). cbn [Obj.get].
      destruct (String.eqb_spec url u) as [->|Hne].
      * rewrite Hnone. unfold recordInfo. apply String.eqb_neq in Hp.
        rewrite Hp. cbn [infoOwn]. now rewrite getOwn_put, String.eqb_refl.
      * destruct (Obj.get url m); [reflexivity|].
        unfold recordInfo. destruct (u =? "__proto__"); cbn [infoOwn];
          [reflexivity|].
        rewrite getOwn_put. apply String.eqb_neq in Hne. now rewrite Hne.
    + rewrite H2. cbn [Obj.get]. unfold recordInfo.
      destruct (String.eqb_spec u "__proto__") as [->|Hne].
      * cbn [String.eqb Ascii.eqb Bool.eqb andb infoPrototype]. now rewrite Hnone.
      * assert (("__proto__" =? u) = false) as ->
            by (apply String.eqb_neq; congruence).
        reflexivity.
    + rewrite H3. unfold recordInfo. cbn [Obj.keys map fst In].
      destruct (String.eqb_spec u "__proto__") as [->|Hne]; cbn [infoOwn].
      * split; [intros [H|[H Hp]]; auto|].
        intros [H|[[H|H] Hp]]; auto. congruence.
      * rewrite in_keys_put. split.
        -- intros [[->|H]|[H Hp]]; auto.
        -- intros [H|[[<-|H] Hp]]; auto.
Qed.

(** X9. [extendedInfo] holds the UrlTimingMap as a plain object: under every
    URL other than [__proto__] the own property is that URL's duration map,
    and the own keys are these URLs.  A URL [__proto__] gets no own property;
    its duration map becomes the prototype of the object. *)
Theorem extendedInfo_is_timings tree m r :
  getExecutionTimingsByURL eventStyle tree = Ok m ->
  audit eventStyle formatMilliseconds tree = Ok r ->
  (forall url, url <> "__proto__" -> infoAt url (extendedInfo r) = Obj.get url m)
  /\ (forall url, In url (Plain.keys (infoOwn (extendedInfo r)))
                  <-> In url (Obj.keys m) /\ url <> "__proto__")
  /\ infoPrototype (extendedInfo r) = Obj.get "__proto__" m.
Proof.
  intros Em Er.
  rewrite (audit_of_timings eventStyle formatMilliseconds tree m Em) in Er.
  injection Er as <-. rewrite auditTimings_closed. cbn [extendedInfo].
  pose proof (extracted_NoDup eventStyle tree m Em) as Hnd.
  split; [|split].
  - intros url Hp. unfold infoAt.
    destruct (recordInfo_fold m {| infoOwn := Plain.empty; infoPrototype := None |}
                url Hnd) as [H1 _].
    cbn zeta in H1. rewrite (H1 Hp). now destruct (Obj.get url m).
  - intros url.
    destruct (recordInfo_fold m {| infoOwn := Plain.empty; infoPrototype := None |}
                url Hnd) as [_ [_ H3]].
    cbn zeta in H3. rewrite H3. cbn. tauto.
  - destruct (recordInfo_fold m {| infoOwn := Plain.empty; infoPrototype := None |}
                "" Hnd) as [_ [H2 _]].
    cbn zeta in H2. rewrite H2. now destruct (Obj.get "__proto__" m).
Qed.

(** X10. The table never has more than 24 headings: [url], at most the 11
    categories of the taxonomy, at most the 11 member functions of
    [Object.prototype], and at most one heading with an [undefined] key.
    When no label of the UrlTimingMap names such a function there are at
    most 13. *)
Theorem headings_bounded tree m r :
  getExecutionTimingsByURL eventStyle tree = Ok m ->
  audit eventStyle formatMilliseconds tree = Ok r ->
  (List.length (headings (details r)) <= 24)%nat
  /\ ((forall t, In t (labelsInOrder m) -> isPrototypeFunction t = false) ->
      (List.length (headings (details r)) <= 13)%nat).
Proof.
  intros Em Er.
  rewrite (audit_of_timings eventStyle formatMilliseconds tree m Em) in Er.
  injection Er as <-. rewrite headings_closed. cbn [List.length]. rewrite length_map.
  split.
  - assert (H : (List.length (columns m)
                 <= List.length (Absent :: map Own groupLabels
                                   ++ map Inherited objectPrototypeFunctions))%nat).
    { apply NoDup_incl_length; [apply NoDup_columns|].
      intros g Hg. pose proof (columns_range m g Hg) as Hr.
      apply in_columns in Hg as [t [Ht <-]].
      unfold lookupResults in Hr. rewrite !in_app_iff in Hr. cbn [In] in Hr.
      destruct Hr as [Hr|[Hr|[Hr|[Hr|[]]]]].
      - right. apply in_app_iff. now left.
      - right. apply in_app_iff. now right.
      - symmetry in Hr. apply taxonomy_proto in Hr.
        now apply (extracted_labels_not_proto eventStyle tree m t Em) in Ht.
      - now left. }
    cbn in H. lia.
  - intros Hl.
    assert (H : (List.length (columns m)
                 <= List.length (Absent :: map Own groupLabels))%nat).
    { apply NoDup_incl_length; [apply NoDup_columns|].
      intros g Hg. apply in_columns in Hg as [t [Ht <-]].
      assert (Hp : inheritedName t = false).
      { unfold inheritedName. rewrite (Hl t Ht), orb_false_r.
        apply String.eqb_neq.
        now apply (extracted_labels_not_proto eventStyle tree m t Em). }
      rewrite (taxonomy_plain t Hp).
      destruct (Plain.getOwn t taskToGroupTable) as [c|] eqn:E; [|now left].
      right. apply in_map. apply taxonomy_own in E. now apply taxonomy_label with t. }
    cbn in H. lia.
Qed.

End Further.


(** * The claims on sample traces *)

Lemma sampleTimings_script : sampleTimings scriptTree = Ok scriptTimings.
Proof. reflexivity. Qed.

Lemma sampleTimings_mixed : sampleTimings mixedTree = Ok mixedTimings.
Proof. reflexivity. Qed.

Lemma sampleTimings_regroup : sampleTimings regroupTree = Ok regroupTimings.
Proof. reflexivity. Qed.

Lemma sampleTimings_inherited : sampleTimings inheritedTree = Ok inheritedTimings.
Proof. reflexivity. Qed.





Lemma score_iff_below_threshold_witness :
  sampleAudit boundaryTree = Ok (auditTimings sampleFormat boundaryTimings)
  /\ (score (auditTimings sampleFormat boundaryTimings) = true
      <-> exists x,
            rawValue (auditTimings sampleFormat boundaryTimings) = VNum x
            /\ numLt binary64 x (numThreshold binary64) = true)
  /\ (rawValue (auditTimings sampleFormat boundaryTimings)
      = VNum (numThreshold binary64)
      -> score (auditTimings sampleFormat boundaryTimings) = false).
Proof.
  split; [reflexivity|].
  apply (score_iff_below_threshold sampleStyle sampleFormat boundaryTree).
  reflexivity.
Defined.

Lemma skipped_urls_leave_no_trace_witness :
  sampleTimings mixedTree = Ok mixedTimings
  /\ sampleAudit mixedTree = Ok (auditTimings sampleFormat mixedTimings)
  /\ (forall url, In url (Obj.keys mixedTimings) ->
        url <> "" /\ url <> "about:blank")
  /\ (forall row,
        In row (items (details (auditTimings sampleFormat mixedTimings))) ->
        exists url, Plain.getOwn "url" row = Some url
                    /\ url <> "" /\ url <> "about:blank")
  /\ sampleTimings (retained mixedTree) = Ok mixedTimings
  /\ sampleAudit (retained mixedTree)
     = Ok (auditTimings sampleFormat mixedTimings).
Proof.
  split; [reflexivity|]. split; [reflexivity|].
  apply (skipped_urls_leave_no_trace sampleStyle sampleFormat mixedTree);
    reflexivity.
Defined.

Lemma headings_in_discovery_order_witness :
  sampleTimings inheritedTree = Ok inheritedTimings
  /\ sampleAudit inheritedTree = Ok (auditTimings sampleFormat inheritedTimings)
  /\ NoDup (map key (headings (details (auditTimings sampleFormat inheritedTimings))))
  /\ headings (details (auditTimings sampleFormat inheritedTimings))
     = urlHeading
       :: map categoryHeading
            (firstSeen strictEq (map taskToGroup (labelsInOrder inheritedTimings)))
  /\ (forall t, In t (labelsInOrder inheritedTimings) ->
        In (categoryHeading (taskToGroup t))
          (tl (headings (details (auditTimings sampleFormat inheritedTimings))))
        /\ ((exists c, taskToGroup t = Own c /\ In c groupLabels)
            <-> In t (Plain.keys taskToGroupTable)))
  /\ (forall h,
        In h (tl (headings (details (auditTimings sampleFormat inheritedTimings)))) ->
        exists t, In t (labelsInOrder inheritedTimings)
                  /\ h = categoryHeading (taskToGroup t)).
Proof.
  split; [reflexivity|]. split; [reflexivity|].
  apply (headings_in_discovery_order sampleStyle sampleFormat inheritedTree);
    reflexivity.
Defined.

(** The columns follow discovery, neither the alphabet nor the magnitudes:
    Paint (2.0) comes before Script Evaluation (2.0), Style & Layout (1.0)
    before Script Parsing & Compile (3.5). *)
Lemma headings_order_example :
  map key (headings (details (auditTimings sampleFormat mixedTimings)))
  = [ Own "url"; Own "Paint"; Own "Script Evaluation"; Own "Style & Layout";
      Own "Script Parsing & Compile" ].
Proof. reflexivity. Qed.

(** Discovery follows the order of [Object.keys]: the label [42], an array
    index, is met before [Paint] although its task comes last. *)
Lemma headings_index_example :
  map key (headings (details (auditTimings sampleFormat inheritedTimings)))
  = [ Own "url"; Absent; Own "Paint"; Inherited "constructor" ].
Proof. reflexivity. Qed.

(** C4 fails as stated: the label [Mystery Task] is no key of the taxonomy,
    and the heading appended for it is no category. *)
Lemma headings_counterexample :
  sampleTimings unknownTree = Ok unknownTimings
  /\ sampleAudit unknownTree = Ok (auditTimings sampleFormat unknownTimings)
  /\ headings (details (auditTimings sampleFormat unknownTimings))
     = [ urlHeading; categoryHeading (Own "Script Evaluation");
         categoryHeading Absent ]
  /\ ~ everyColumnIsCategory (auditTimings sampleFormat unknownTimings).
Proof.
  split; [reflexivity|]. split; [reflexivity|]. split; [reflexivity|].
  intros H. destruct (H (categoryHeading Absent)) as [c [Hc _]].
  - right. now left.
  - discriminate Hc.
Qed.

Lemma empty_timings_pass_witness :
  sampleTimings blankTree = Ok Obj.empty
  /\ exists r,
       sampleAudit blankTree = Ok r
       /\ List.length (items (details r))
          = List.length (@Obj.empty (Plain.t (jsv binary64)))
       /\ (@Obj.empty (Plain.t (jsv binary64)) = Obj.empty ->
           r = {| score := true;
                  rawValue := VNum (numZero binary64);
                  displayValue := sampleFormat (VNum (numZero binary64)) None;
                  details := makeTableDetails [urlHeading] [];
                  extendedInfo :=
                    {| infoOwn := Plain.empty; infoPrototype := None |} |}).
Proof.
  split; [reflexivity|].
  apply (empty_timings_pass sampleStyle sampleFormat blankTree).
  reflexivity.
Defined.

Lemma mystery_not_in_taxonomy : ~ In "Mystery Task" (Plain.keys taskToGroupTable).
Proof.
  cbn. intros H. repeat (destruct H as [H|H]; [discriminate H|]). exact H.
Qed.

(** C5 fails as stated: the time of [Mystery Task] has a heading and a
    cell. *)
Lemma unknown_label_counterexample :
  ~ In "Mystery Task" (Plain.keys taskToGroupTable)
  /\ sampleTimings unknownTree = Ok unknownTimings
  /\ exists r,
       sampleAudit unknownTree = Ok r
       /\ headings (details r)
          = [ urlHeading; categoryHeading (Own "Script Evaluation");
              categoryHeading Absent ]
       /\ items (details r)
          = [ [ ("url", "https://a.test/script.js");
                ("Script Evaluation", sampleFormat (number 3) (Some 1%nat));
                ("undefined", sampleFormat (number 5) (Some 1%nat)) ] ]
       /\ ~ unknownTimeUnattributed r.
Proof.
  split; [exact mystery_not_in_taxonomy|]. split; [reflexivity|].
  eexists. split; [reflexivity|]. split; [reflexivity|]. split; [reflexivity|].
  intros [Hh _]. apply (Hh (categoryHeading Absent)); [|reflexivity].
  right. right. now left.
Qed.

Lemma unknown_label_gets_undefined_column_witness :
  sampleTimings unknownTree = Ok unknownTimings
  /\ sampleAudit unknownTree = Ok (auditTimings sampleFormat unknownTimings)
  /\ In ("https://a.test/script.js", unknownDurations) unknownTimings
  /\ In ("Mystery Task", number 5) unknownDurations
  /\ ~ In "Mystery Task" (Plain.keys taskToGroupTable)
  /\ inheritedName "Mystery Task" = false
  /\ taskToGroup "Mystery Task" = Absent
  /\ rawValue (auditTimings sampleFormat unknownTimings)
     = fold_left jsAdd (durationsInOrder unknownTimings) (VNum (numZero binary64))
  /\ In (number 5) (durationsInOrder unknownTimings)
  /\ In (categoryHeading Absent)
       (headings (details (auditTimings sampleFormat unknownTimings)))
  /\ exists x xs row,
       number 5 = VNum x
       /\ categoryDurations Absent unknownDurations = map VNum xs
       /\ In x xs
       /\ In row (items (details (auditTimings sampleFormat unknownTimings)))
       /\ Plain.getOwn "url" row = Some "https://a.test/script.js"
       /\ Plain.getOwn "undefined" row
          = Some (sampleFormat (VNum (resetNum (runningSum xs))) (Some 1%nat)).
Proof.
  split; [reflexivity|]. split; [reflexivity|].
  split; [now left|]. split; [right; now left|].
  split; [exact mystery_not_in_taxonomy|]. split; [reflexivity|].
  apply (unknown_label_gets_undefined_column sampleStyle sampleFormat
           unknownTree unknownTimings (auditTimings sampleFormat unknownTimings)
           "https://a.test/script.js" unknownDurations "Mystery Task" (number 5)).
  - reflexivity.
  - reflexivity.
  - now left.
  - right. now left.
  - exact mystery_not_in_taxonomy.
  - reflexivity.
Defined.

(** C6 fails as stated: for a retained URL node without [children] the
    extractor returns no map at all. *)
Lemma missing_children_counterexample :
  sampleTimings missingChildrenTree
  = Throw (TypeError "Cannot read property 'forEach' of undefined")
  /\ ~ (exists m,
          sampleTimings missingChildrenTree = Ok m
          /\ Obj.get "https://a.test/script.js" m = Some Plain.empty).
Proof.
  split; [reflexivity|]. intros [m [E _]]. discriminate E.
Qed.

Lemma missing_children_throw_witness :
  In ("https://a.test/script.js", mkUrlNode None) missingChildrenTree
  /\ skipped "https://a.test/script.js" = false
  /\ children (@mkUrlNode binary64 string None) = None
  /\ (exists e, sampleTimings missingChildrenTree = Throw e)
  /\ (exists e, sampleAudit missingChildrenTree = Throw e).
Proof.
  split; [now left|]. split; [reflexivity|]. split; [reflexivity|].
  apply (missing_children_throw sampleStyle sampleFormat
           missingChildrenTree "https://a.test/script.js" (mkUrlNode None)).
  - now left.
  - reflexivity.
  - reflexivity.
Defined.





(** Each self-time is rounded before it is added: two tasks of 1.04 ms give
    2, whereas their sum 2.08 would round to 2.1. *)
Lemma rounded_before_summation_example :
  Plain.getOwn "Paint" mixedDurations = Some (number 2)
  /\ toFixed1Float (1.04 + 1.04) = 2.1%float
  /\ toFixed1Float 1.04 = 1%float.
Proof. repeat split. Qed.

(** The rounding [Number(x.toFixed(1))] on doubles: to the closest tenth of
    the exact value, the larger one on a tie, the sign put back afterwards. *)
Lemma toFixed1_examples :
  toFixed1Float 0.25 = 0.3%float
  /\ toFixed1Float 0.75 = 0.8%float
  /\ toFixed1Float 0.05 = 0.1%float
  /\ toFixed1Float 1.45 = 1.4%float
  /\ toFixed1Float (-1.05) = (-1.1)%float
  /\ toFixed1Float (-0.04) = neg_zero
  /\ toFixed1Float 1e21 = 1e21%float
  /\ toFixed1Float infinity = infinity.
Proof. repeat split. Qed.





(** The falsy values a [selfTime] can hold all count as 0, also NaN. *)
Lemma falsy_values_example :
  map (@roundedSelfTime binary64)
    [ JSundefined; JSnull; JSbool false; @JSnum binary64 0%float;
      @JSnum binary64 neg_zero; @JSnum binary64 nan; JSstr "" ]
  = map (fun _ => Ok (numZero binary64)) (seq 0 7).
Proof. reflexivity. Qed.

(** ** The extras on sample traces *)

Lemma timings_keys_in_tree_order_witness :
  sampleTimings mixedTree = Ok mixedTimings
  /\ Obj.keys mixedTimings = firstSeen String.eqb (map fst (retained mixedTree))
  /\ NoDup (Obj.keys mixedTimings).
Proof.
  split; [reflexivity|].
  apply (timings_keys_in_tree_order sampleStyle mixedTree mixedTimings).
  reflexivity.
Defined.

Lemma toFixed1Q_nonneg (x : Q) : (0 <= x)%Q -> (0 <= toFixed1Q x)%Q.
Proof.
  intros H. unfold toFixed1Q. rewrite (proj2 (Qle_bool_iff 0 x) H), Qred_correct.
  assert (Hf : (0 <= Qfloor (x * 10 + (1 # 2)))%Z).
  { change 0%Z with (Qfloor 0). apply Qfloor_resp_le.
    assert (0 <= x * 10)%Q by (apply Qmult_le_0_compat; [assumption|discriminate]).
    lra. }
  unfold Qle. cbn [Qnum Qden]. lia.
Qed.

Lemma Qplus_nonneg (x y : Q) : (0 <= x)%Q -> (0 <= y)%Q -> (0 <= x + y)%Q.
Proof. intros. lra. Qed.

Lemma exactTree_nonneg :
  forall c, In c (retainedChildren exactTree) ->
            (0 <= selfTimeOrZero (selfTime c))%Q.
Proof.
  intros c H. cbn in H.
  repeat (destruct H as [<-|H]; [apply Qle_bool_imp_le; reflexivity|]).
  destruct H.
Qed.

Lemma rawValue_nonneg_witness :
  (0 <= numZero exact)%Q
  /\ (forall x y : Q, (0 <= x)%Q -> (0 <= y)%Q -> (0 <= numAdd exact x y)%Q)
  /\ (forall x : Q, (0 <= x)%Q -> (0 <= numToFixed1 exact x)%Q)
  /\ (forall c, In c (retainedChildren exactTree) ->
                (0 <= selfTimeOrZero (selfTime c))%Q)
  /\ getExecutionTimingsByURL sampleStyle exactTree = Ok exactTimings
  /\ audit sampleStyle exactFormat exactTree
     = Ok (auditTimings exactFormat exactTimings)
  /\ (forall x, rawValue (auditTimings exactFormat exactTimings) = VNum x ->
                (0 <= x)%Q)
  /\ ((forall c, In c (retainedChildren exactTree) ->
                 isPrototypeFunction (labelOf sampleStyle c) = false) ->
      exists x, rawValue (auditTimings exactFormat exactTimings) = VNum x
                /\ (0 <= x)%Q).
Proof.
  split; [apply Qle_refl|]. split; [exact Qplus_nonneg|].
  split; [exact toFixed1Q_nonneg|]. split; [exact exactTree_nonneg|].
  split; [reflexivity|]. split; [reflexivity|].
  apply (rawValue_nonneg sampleStyle exactFormat (fun x : Q => (0 <= x)%Q)
           exactTree exactTimings (auditTimings exactFormat exactTimings)).
  - apply Qle_refl.
  - exact Qplus_nonneg.
  - exact toFixed1Q_nonneg.
  - exact exactTree_nonneg.
  - reflexivity.
  - reflexivity.
Defined.

Lemma rows_in_tree_order_witness :
  sampleTimings mixedTree = Ok mixedTimings
  /\ sampleAudit mixedTree = Ok (auditTimings sampleFormat mixedTimings)
  /\ map (Plain.getOwn "url")
       (items (details (auditTimings sampleFormat mixedTimings)))
     = map Some (firstSeen String.eqb (map fst (retained mixedTree))).
Proof.
  split; [reflexivity|]. split; [reflexivity|].
  apply (rows_in_tree_order sampleStyle sampleFormat mixedTree mixedTimings);
    reflexivity.
Defined.

Lemma rows_are_rectangular_witness :
  sampleAudit inheritedTree = Ok (auditTimings sampleFormat inheritedTimings)
  /\ In (rowOver sampleFormat (columns inheritedTimings) "https://a.test/a.js"
           (groupsOf inheritedDurations))
       (items (details (auditTimings sampleFormat inheritedTimings)))
  /\ Plain.keys (rowOver sampleFormat (columns inheritedTimings)
                   "https://a.test/a.js" (groupsOf inheritedDurations))
     = map (fun h => propKey (key h))
         (headings (details (auditTimings sampleFormat inheritedTimings)))
  /\ NoDup (Plain.keys (rowOver sampleFormat (columns inheritedTimings)
                          "https://a.test/a.js" (groupsOf inheritedDurations))).
Proof.
  split; [reflexivity|]. split; [left; reflexivity|].
  apply (rows_are_rectangular sampleStyle sampleFormat inheritedTree
           (auditTimings sampleFormat inheritedTimings)).
  - reflexivity.
  - left. reflexivity.
Defined.

Lemma category_cell_is_category_total_witness :
  sampleTimings mixedTree = Ok mixedTimings
  /\ sampleAudit mixedTree = Ok (auditTimings sampleFormat mixedTimings)
  /\ In ("https://a.test/a.js", mixedDurations) mixedTimings
  /\ In (categoryHeading (Own "Paint"))
       (headings (details (auditTimings sampleFormat mixedTimings)))
  /\ categoryHeading (Own "Paint") <> urlHeading
  /\ In (rowOver sampleFormat (columns mixedTimings) "https://a.test/a.js"
           (groupsOf mixedDurations))
       (items (details (auditTimings sampleFormat mixedTimings)))
  /\ Plain.getOwn "url" (rowOver sampleFormat (columns mixedTimings)
                           "https://a.test/a.js" (groupsOf mixedDurations))
     = Some "https://a.test/a.js"
  /\ Plain.getOwn (propKey (key (categoryHeading (Own "Paint"))))
       (rowOver sampleFormat (columns mixedTimings) "https://a.test/a.js"
          (groupsOf mixedDurations))
     = Some (sampleFormat
               (orZeroOwn
                  (extend None
                     (categoryDurations (key (categoryHeading (Own "Paint")))
                        mixedDurations)))
               (Some 1%nat))
  /\ (forall xs,
        categoryDurations (key (categoryHeading (Own "Paint"))) mixedDurations
        = map VNum xs ->
        Plain.getOwn (propKey (key (categoryHeading (Own "Paint"))))
          (rowOver sampleFormat (columns mixedTimings) "https://a.test/a.js"
             (groupsOf mixedDurations))
        = Some (sampleFormat (VNum (resetNum (runningSum xs))) (Some 1%nat))).
Proof.
  split; [reflexivity|]. split; [reflexivity|]. split; [now left|].
  split; [right; left; reflexivity|]. split; [discriminate|].
  split; [left; reflexivity|]. split; [reflexivity|].
  apply (category_cell_is_category_total sampleStyle sampleFormat mixedTree
           mixedTimings (auditTimings sampleFormat mixedTimings)
           "https://a.test/a.js" mixedDurations (categoryHeading (Own "Paint"))).
  - reflexivity.
  - reflexivity.
  - now left.
  - right. left. reflexivity.
  - discriminate.
  - left. reflexivity.
  - reflexivity.
Defined.

Lemma extendedInfo_is_timings_witness :
  sampleTimings mixedTree = Ok mixedTimings
  /\ sampleAudit mixedTree = Ok (auditTimings sampleFormat mixedTimings)
  /\ (forall url, url <> "__proto__" ->
        infoAt url (extendedInfo (auditTimings sampleFormat mixedTimings))
        = Obj.get url mixedTimings)
  /\ (forall url,
        In url (Plain.keys
                  (infoOwn (extendedInfo (auditTimings sampleFormat mixedTimings))))
        <-> In url (Obj.keys mixedTimings) /\ url <> "__proto__")
  /\ infoPrototype (extendedInfo (auditTimings sampleFormat mixedTimings))
     = Obj.get "__proto__" mixedTimings.
Proof.
  split; [reflexivity|]. split; [reflexivity|].
  apply (extendedInfo_is_timings sampleStyle sampleFormat mixedTree mixedTimings);
    reflexivity.
Defined.

(** The own keys of [extendedInfo] come in the order of [Object.keys], and a
    URL [__proto__] leaves no own property. *)
Lemma extendedInfo_order_example :
  Plain.keys
    (infoOwn
       (extendedInfo
          (auditTimings sampleFormat
             [ ("https://a.test/a.js", [ ("Paint", number 1) ]);
               ("__proto__", [ ("Paint", number 2) ]);
               ("7", [ ("Paint", number 3) ]) ])))
  = [ "7"; "https://a.test/a.js" ].
Proof. reflexivity. Qed.

Lemma headings_bounded_witness :
  sampleTimings inheritedTree = Ok inheritedTimings
  /\ sampleAudit inheritedTree = Ok (auditTimings sampleFormat inheritedTimings)
  /\ (List.length (headings (details (auditTimings sampleFormat inheritedTimings)))
      <= 24)%nat
  /\ ((forall t, In t (labelsInOrder inheritedTimings) ->
                 isPrototypeFunction t = false) ->
      (List.length (headings (details (auditTimings sampleFormat inheritedTimings)))
       <= 13)%nat).
Proof.
  split; [reflexivity|]. split; [reflexivity|].
  apply (headings_bounded sampleStyle sampleFormat inheritedTree inheritedTimings);
    reflexivity.
Defined.

(** The extractor runs on the mixed tree although its [about:blank] node has
    no [children], and fails once a retained node lacks them or a child's
    [selfTime] is a truthy non-number. *)
Lemma extractable_examples :
  extractable mixedTree = true
  /\ extractable missingChildrenTree = false
  /\ extractable [ ("https://a.test/a.js",
                    mkUrlNode (Some [ @mkTaskNode binary64 string "Paint"
                                        (JSstr "12") ])) ] = false.
Proof.
  repeat split.
Qed.

(** ** Scenarios *)

Lemma script_scenario :
  exists r,
    sampleAudit scriptTree = Ok r
    /\ score r = true
    /\ rawValue r = number 1700.5
    /\ map key (headings (details r))
       = [ Own "url"; Own "Script Evaluation"; Own "Script Parsing & Compile" ].
Proof.
  eexists. split; [reflexivity|]. repeat split.
Qed.

Lemma blank_scenario :
  exists r,
    sampleAudit blankTree = Ok r
    /\ score r = true /\ rawValue r = number 0 /\ items (details r) = [].
Proof.
  eexists. split; [reflexivity|]. repeat split.
Qed.

Lemma slow_scenario :
  exists r,
    sampleAudit slowTree = Ok r /\ score r = false /\ rawValue r = number 4500.
Proof.
  eexists. split; [reflexivity|]. repeat split.
Qed.

Lemma inherited_scenario :
  exists r,
    sampleAudit inheritedTree = Ok r
    /\ score r = false
    /\ items (details r)
       = [ [ ("url", "https://a.test/a.js");
             ("undefined", "1 ms");
             ("Paint", "2 ms");
             ("function Object() { [native code] }", "NaN ms") ] ].
Proof.
  eexists. split; [reflexivity|]. repeat split.
Qed.
